(** * Email triage classifier (scripts/email_triage_agent.py, scripts/gmail_sync.py)

    A shallow embedding of [EmailTriageAgent._analyze_email_indicators],
    [EmailTriageAgent.triage_email], [EmailTriageFlow.process_email] and
    the [gmail_sync.triage_email] wrapper, with the properties of the
    triage specification stated over it.

    Python [str] values are modelled as [string]; a character stands for
    the code point of the same number (0..255), and [lower], [strip] and
    [isspace] are Python's on that range. *)

From Stdlib Require Import String Ascii List Bool Arith NArith Lia QArith.
Import ListNotations.
Close Scope Q_scope.
Open Scope nat_scope.
Open Scope string_scope.

(** ** Python string primitives *)

Module PyStr.

(** The one-character string "\n". *)
Definition nl : string := String "010"%char "".

(** [c.lower()] on code points below 256: A-Z and the upper-case
    Latin-1 letters (0xC0-0xDE except the sign 0xD7) move up by 32. *)
Definition lower_char (c : ascii) : ascii :=
  let n := N_of_ascii c in
  if ((65 <=? n) && (n <=? 90))%N
     || ((192 <=? n) && (n <=? 222) && negb (n =? 215))%N
  then ascii_of_N (n + 32)
  else c.

(** [s.lower()] *)
Fixpoint lower (s : string) : string :=
  match s with
  | EmptyString => EmptyString
  | String c s' => String (lower_char c) (lower s')
  end.

(** [c.isspace()] on code points below 256. *)
Definition isspace (c : ascii) : bool :=
  let n := N_of_ascii c in
  (((9 <=? n) && (n <=? 13)) || ((28 <=? n) && (n <=? 32))
   || (n =? 133) || (n =? 160))%N.

Fixpoint lstrip (s : string) : string :=
  match s with
  | EmptyString => EmptyString
  | String c s' => if isspace c then lstrip s' else s
  end.

Fixpoint rstrip (s : string) : string :=
  match s with
  | EmptyString => EmptyString
  | String c s' =>
      let r := rstrip s' in
      if isspace c && (r =? "") then EmptyString else String c r
  end.

(** [s.strip()] *)
Definition strip (s : string) : string := rstrip (lstrip s).

(** [sub in s] *)
Fixpoint contains (sub s : string) : bool :=
  prefix sub s
  || match s with
     | EmptyString => false
     | String _ s' => contains sub s'
     end.

(** [any(t in s for t in terms)] *)
Definition any_in (terms : list string) (s : string) : bool :=
  existsb (fun t => contains t s) terms.

(** [s[:n]] *)
Fixpoint take (n : nat) (s : string) : string :=
  match n, s with
  | S n', String c s' => String c (take n' s')
  | _, _ => EmptyString
  end.

(** [s.count(sub)]: occurrences counted left to right without overlap;
    [skip] is the number of characters still covered by the last match. *)
Fixpoint count_from (sub s : string) (skip : nat) : nat :=
  match s with
  | EmptyString => 0
  | String _ s' =>
      match skip with
      | S k => count_from sub s' k
      | O => if prefix sub s
             then S (count_from sub s' (String.length sub - 1))
             else count_from sub s' 0
      end
  end.

Definition count (sub s : string) : nat :=
  match sub with
  | EmptyString => S (String.length s)
  | _ => count_from sub s 0
  end.

(** The text before the first "\n" and, when there is one, the text
    after it. *)
Fixpoint break_nl (s : string) : string * option string :=
  match s with
  | EmptyString => (EmptyString, None)
  | String c s' =>
      if Ascii.eqb c "010"%char then (EmptyString, Some s')
      else let '(h, t) := break_nl s' in (String c h, t)
  end.

(** [s.split("\n", 1)] *)
Definition split1 (s : string) : list string :=
  match break_nl s with
  | (h, None) => [h]
  | (h, Some t) => [h; t]
  end.

End PyStr.

Import PyStr.

(** ** Exceptions and results *)

(** A raised Python exception (a subclass of [Exception]): its class
    name and the text [str(e)] gives. *)
Record exn : Type := mk_exn { exn_class : string; exn_msg : string }.

(** [str(e)] *)
Definition str_exn (e : exn) : string := exn_msg e.

Inductive result (A : Type) : Type :=
| Return (a : A)
| Raise (e : exn).
Arguments Return {A} a.
Arguments Raise {A} e.

Definition bind {A B : Type} (m : result A) (k : A -> result B) : result B :=
  match m with
  | Return a => k a
  | Raise e => Raise e
  end.

Notation "x <- m ;; k" := (bind m (fun x => k))
  (at level 61, m at next level, right associativity).

(** A call argument: a [str], or [None]. *)
Definition pyarg : Type := option string.

(** Truth value of a [str]-or-[None]: [None] and the empty string are false. *)
Definition truthy (x : pyarg) : bool :=
  match x with
  | Some s => negb (s =? "")
  | None => false
  end.

(** [x.lower() if x else ""] *)
Definition lower_or_empty (x : pyarg) : string :=
  match x with
  | Some s => if truthy x then lower s else ""
  | None => ""
  end.

(** [x.lower()]: an [AttributeError] on [None]. *)
Definition method_lower (x : pyarg) : result string :=
  match x with
  | Some s => Return (lower s)
  | None => Raise (mk_exn "AttributeError" "'NoneType' object has no attribute 'lower'")
  end.

(** [{x}] inside an f-string. *)
Definition fmt (x : pyarg) : string :=
  match x with
  | Some s => s
  | None => "None"
  end.

(** [any(term in x.lower() for term in terms)]: the generator calls
    [x.lower()] once per term it reaches and stops at the first hit. *)
Fixpoint any_in_lower (terms : list string) (x : pyarg) : result bool :=
  match terms with
  | [] => Return false
  | t :: ts =>
      xl <- method_lower x ;;
      if contains t xl then Return true else any_in_lower ts x
  end.

(** ** scripts/email_triage_agent.py *)

Module email_triage_agent.

(** The agent object: its instruction texts and the crew it runs.
    [crew_kickoff email_content] is [crew.kickoff(inputs={"email":
    email_content}).raw], or the exception the call raises. *)
Record EmailTriageAgent : Type := mk_agent {
  triage_instructions : list (string * string);
  crew_kickoff : string -> result string
}.

Definition message_terms : list string :=
  ["voice message"; "text message"; "fax"].

Definition legal_indicators : list string :=
  ["case"; "court"; "filing"; "attorney"; "lawyer"; "legal";
   "hearing"; "plaintiff"; "defendant"; "estate"; "vs."; "v."].

Definition team_domains : list string :=
  ["whaleylawfirm.com"; "filevine.com"; "blazeo.com"].

Definition platform_domains : list string :=
  ["skool.com"; "medium.com"; "facebook.com"; "twitter.com"; "linkedin.com"].

Definition platform_indicators (subject_lower body_lower sender_lower : string)
  : list bool :=
  [ contains "new notification" subject_lower;
    contains "notification" subject_lower && negb (contains "court" subject_lower);
    contains "digest" subject_lower;
    contains "what you missed" body_lower;
    contains "notification since" body_lower;
    contains "noreply" sender_lower;
    contains "no-reply" sender_lower;
    contains "donotreply" sender_lower;
    contains "notification" sender_lower;
    contains "updates" subject_lower && contains "new" subject_lower;
    any_in platform_domains sender_lower;
    contains "view online" (take 500 body_lower);
    contains "view in browser" body_lower;
    contains "email preferences" body_lower;
    contains "unsubscribe" body_lower
      && (contains "offer" body_lower || contains "discount" body_lower);
    (5 <? count "http" body_lower)%nat;
    contains "too many emails" body_lower ].

(** The [if i == k: return ...] chain of the platform loop. *)
Definition platform_reason (i : nat) : option string :=
  match i with
  | 0 => Some "Email contains 'new notification' in subject"
  | 1 => Some "Email contains 'notification' in subject"
  | 2 => Some "Email is a digest"
  | 3 => Some "Email contains 'what you missed'"
  | 4 => Some "Email contains 'notification since'"
  | 5 => Some "Email is from noreply address"
  | 6 => Some "Email is from no-reply address"
  | 7 => Some "Email is from donotreply address"
  | 8 => Some "Email is from notification sender"
  | 9 => Some "Email contains 'updates' and 'new' in subject"
  | 10 => Some "Email is from social/platform domain"
  | 11 => Some "Email has 'view online' at top"
  | 12 => Some "Email has 'view in browser'"
  | 13 => Some "Email mentions email preferences"
  | 14 => Some "Email has unsubscribe and offer/discount"
  | 15 => Some "Email contains many links (marketing)"
  | 16 => Some "Email mentions 'too many emails'"
  | _ => None
  end.

(** [for i, indicator in enumerate(platform_indicators)]: the reason
    returned by the first true indicator whose index has one. *)
Fixpoint platform_scan (i : nat) (indicators : list bool) : option string :=
  match indicators with
  | [] => None
  | indicator :: rest =>
      if indicator then
        match platform_reason i with
        | Some r => Some r
        | None => platform_scan (S i) rest
        end
      else platform_scan (S i) rest
  end.

Definition marketing_indicators (subject_lower body_lower : string) : list bool :=
  [ contains "offer" subject_lower;
    contains "discount" subject_lower;
    contains "sale" subject_lower;
    contains "deal" subject_lower;
    contains "promotion" subject_lower;
    contains "special" subject_lower && contains "offer" subject_lower;
    contains "coupon" subject_lower;
    contains "limited time" subject_lower
      || contains "limited time" (take 500 body_lower);
    contains "off" subject_lower && contains "%" subject_lower;
    contains "exclusive" subject_lower;
    contains "reward" subject_lower && negb (contains "law" subject_lower);
    contains "pro days" (take 500 body_lower);
    contains "pro days" subject_lower;
    contains "come back" subject_lower;
    contains "miss you" subject_lower;
    contains "save" subject_lower && contains "$" subject_lower ].

(** [any(bs)] *)
Definition any (bs : list bool) : bool := existsb (fun b => b) bs.

(** The verdict of the two filtering blocks (platform signals, then
    marketing signals) and of the final [return None, 0, ...]. *)
Definition filter_verdict (subject_lower body_lower sender_lower : string)
  : option string * Q * string :=
  let continue_ :=
    if any (marketing_indicators subject_lower body_lower)
    then (Some "ignore", 0.9%Q, "Email contains marketing/promotional content")
    else (None, 0%Q, "No conclusive indicators found, need AI analysis") in
  let indicators := platform_indicators subject_lower body_lower sender_lower in
  if any indicators then
    match platform_scan 0 indicators with
    | Some r => (Some "ignore", 0.9%Q, r)
    | None => continue_
    end
  else continue_.

Definition _analyze_email_indicators (self : EmailTriageAgent)
    (subject body sender : pyarg) : option string * Q * string :=
  let subject_lower := lower_or_empty subject in
  let body_lower := lower_or_empty body in
  let sender_lower := lower_or_empty sender in
  if any_in message_terms subject_lower && contains "ringcentral" sender_lower
  then (Some "notify", 0.95%Q, "Message notification from RingCentral")
  else if (contains "bill" subject_lower && contains "due" subject_lower)
          || contains "payment required" subject_lower
  then (Some "notify", 0.95%Q, "Bill or payment notification")
  else
    match find (fun indicator => contains indicator subject_lower) legal_indicators with
    | Some indicator =>
        (Some "respond", 0.95%Q, "Legal term in subject: '" ++ indicator ++ "'")
    | None =>
        let is_team_member := any_in team_domains sender_lower in
        if is_team_member
        then (Some "respond", 0.95%Q, "Email from team member domain")
        else filter_verdict subject_lower body_lower sender_lower
    end.

(** The f-string [email_content] handed to the crew. *)
Definition email_content (subject body sender : pyarg) : string :=
  nl ++ "        Subject: " ++ fmt subject ++ nl
     ++ "        " ++ nl
     ++ "        From: " ++ fmt sender ++ nl
     ++ "        " ++ nl
     ++ "        Body:" ++ nl
     ++ "        " ++ fmt body ++ nl
     ++ "        ".

(** Parsing of the crew's answer: [result_text = result.raw.strip()]
    down to the [else] branches that default to "notify". *)
Definition parse_result (raw : string) : string * string :=
  let result_text := strip raw in
  let parts := split1 result_text in
  match parts with
  | part0 :: rest =>
      let category_text := strip (lower part0) in
      let reasoning :=
        match rest with
        | part1 :: _ => strip part1
        | [] => "No reasoning provided"
        end in
      if category_text =? "ignore" then ("ignore", reasoning)
      else if category_text =? "notify" then ("notify", reasoning)
      else if category_text =? "respond" then ("respond", reasoning)
      else ("notify",
            "Could not determine exact category from '" ++ category_text
              ++ "', defaulting to 'notify'." ++ nl ++ result_text)
  | [] => ("notify", "Failed to parse result: " ++ result_text)
  end.

Definition legal_terms : list string :=
  ["case"; "court"; "attorney"; "estate"; "v."; "vs."; "plaintiff"; "defendant"].

(** First safeguard: voice, text and fax messages from RingCentral. *)
Definition safeguard_message (cr : string * string) (subject sender : pyarg)
  : result (string * string) :=
  let '(category, reasoning) := cr in
  fire <- (if category =? "ignore" then
             hit <- any_in_lower message_terms subject ;;
             if hit then
               sl <- method_lower sender ;; Return (contains "ringcentral" sl)
             else Return false
           else Return false) ;;
  if fire
  then Return ("notify",
               "SAFEGUARD OVERRIDE: Voice/text/fax messages should not be ignored."
                 ++ nl ++ "Original reasoning: " ++ reasoning)
  else Return (category, reasoning).

(** Second safeguard: legal terms in the subject. *)
Definition safeguard_legal (cr : string * string) (subject : pyarg)
  : result (string * string) :=
  let '(category, reasoning) := cr in
  fire <- (if category =? "ignore" then any_in_lower legal_terms subject
           else Return false) ;;
  if fire
  then Return ("respond",
               "SAFEGUARD OVERRIDE: Legal correspondence should not be ignored."
                 ++ nl ++ "Original reasoning: " ++ reasoning)
  else Return (category, reasoning).

(** Third safeguard: bills that are due. *)
Definition safeguard_bill (cr : string * string) (subject : pyarg)
  : result (string * string) :=
  let '(category, reasoning) := cr in
  fire <- (if category =? "ignore" then
             sl <- method_lower subject ;;
             if contains "bill" sl then
               sl' <- method_lower subject ;; Return (contains "due" sl')
             else Return false
           else Return false) ;;
  if fire
  then Return ("notify",
               "SAFEGUARD OVERRIDE: Bills and payment notices should not be ignored."
                 ++ nl ++ "Original reasoning: " ++ reasoning)
  else Return (category, reasoning).

(** The three safeguards in the order of the source, up to the final
    [return category, reasoning]. *)
Definition apply_safeguards (cr : string * string) (subject sender : pyarg)
  : result (string * string) :=
  cr1 <- safeguard_message cr subject sender ;;
  cr2 <- safeguard_legal cr1 subject ;;
  safeguard_bill cr2 subject.

(** The part of [triage_email] after the fast-path test: run the crew,
    parse its answer, apply the safeguards. *)
Definition llm_triage (self : EmailTriageAgent) (subject body sender : pyarg)
  : result (string * string) :=
  raw <- crew_kickoff self (email_content subject body sender) ;;
  apply_safeguards (parse_result raw) subject sender.

Definition triage_email (self : EmailTriageAgent) (subject body sender : pyarg)
  : result (string * string) :=
  let '(pre_category, confidence, pre_reasoning) :=
    _analyze_email_indicators self subject body sender in
  match pre_category with
  | Some c =>
      if truthy pre_category && Qle_bool 0.9%Q confidence
      then Return (c, "Automatic categorization: " ++ pre_reasoning)
      else llm_triage self subject body sender
  | None => llm_triage self subject body sender
  end.

(** [EmailTriageState]; the flow assigns the three inputs without
    validation, so they keep the type of the call arguments. *)
Record EmailTriageState : Type := mk_state {
  email_subject : pyarg;
  email_body : pyarg;
  email_sender : pyarg;
  triage_category : string;
  triage_reasoning : string
}.

Record EmailTriageFlow : Type := mk_flow {
  state : EmailTriageState;
  triage_agent : EmailTriageAgent
}.

(** [EmailTriageFlow.process_email]: the category, and the flow with
    its state updated; an exception leaves the state as it was. *)
Definition process_email (self : EmailTriageFlow) : result string * EmailTriageFlow :=
  let st := state self in
  match triage_email (triage_agent self)
          (email_subject st) (email_body st) (email_sender st) with
  | Return (category, reasoning) =>
      (Return category,
       mk_flow (mk_state (email_subject st) (email_body st) (email_sender st)
                         category reasoning)
               (triage_agent self))
  | Raise e => (Raise e, self)
  end.

(** [flow.kickoff()] runs the single start method. *)
Definition kickoff (self : EmailTriageFlow) : result string * EmailTriageFlow :=
  process_email self.

End email_triage_agent.

(** ** scripts/gmail_sync.py *)

Module gmail_sync.
Import email_triage_agent.

Definition valid_categories : list string := ["ignore"; "notify"; "respond"].

(** [category in valid_categories] *)
Definition is_valid (category : string) : bool :=
  existsb (String.eqb category) valid_categories.

(** [triage_email(subject, body, sender)] over the module-level
    [email_triage_flow], which is passed in and returned. *)
Definition triage_email (email_triage_flow : EmailTriageFlow)
    (subject body sender : pyarg)
  : result (string * string) * EmailTriageFlow :=
  match body with
  | None =>
      (* body[:500] in the logging header *)
      (Raise (mk_exn "TypeError" "'NoneType' object is not subscriptable"),
       email_triage_flow)
  | Some _ =>
      let st := state email_triage_flow in
      let flow1 :=
        mk_flow (mk_state subject body sender
                          (triage_category st) (triage_reasoning st))
                (triage_agent email_triage_flow) in
      let '(r, flow2) := kickoff flow1 in
      match r with
      | Return category =>
          let reasoning := triage_reasoning (state flow2) in
          if negb (is_valid category)
          then (Return ("notify",
                        reasoning ++ nl
                          ++ "[SYSTEM: Invalid category detected, defaulting to 'notify']"),
                flow2)
          else (Return (category, reasoning), flow2)
      | Raise e =>
          (Return ("notify", "Triage failed with error: " ++ str_exn e), flow2)
      end
  end.

End gmail_sync.

Import email_triage_agent.

(** ** The vocabulary of the specification *)

Module Spec.

(** [t] occurs in [s]. *)
Definition occurs (t s : string) : Prop :=
  exists pre post, s = pre ++ t ++ post.

(** [t] occurs in [s] up to letter case: a stretch of [s] and [t]
    lower-case to the same text. *)
Definition occurs_nocase (t s : string) : Prop :=
  exists pre mid post, s = pre ++ mid ++ post /\ lower mid = lower t.

(** One of the three triage categories. *)
Definition is_category (c : string) : Prop :=
  c = "ignore" \/ c = "notify" \/ c = "respond".

(** The text of [s] up to its first newline. *)
Fixpoint first_line (s : string) : string :=
  match s with
  | EmptyString => EmptyString
  | String c s' =>
      if Ascii.eqb c "010"%char then EmptyString else String c (first_line s')
  end.

(** The call leaves the fast path: the Indicator Matcher gave no
    category, or a confidence below 0.9. *)
Definition takes_fallback (self : EmailTriageAgent) (subject body sender : pyarg)
  : Prop :=
  let '(pre_category, confidence, _) :=
    _analyze_email_indicators self subject body sender in
  truthy pre_category && Qle_bool 0.9%Q confidence = false.

(** Safeguard Policy (spec 4.3) as a rule table: when a rule holds of
    subject and sender, an "ignore" verdict is forced to [forced] and
    [note] is put in front of the reasoning. *)
Record rule : Type := mk_rule {
  holds : string -> string -> bool;
  forced : string;
  note : string
}.

Definition rule_message : rule :=
  mk_rule (fun subject sender =>
             any_in ["voice message"; "text message"; "fax"] (lower subject)
             && contains "ringcentral" (lower sender))
          "notify"
          "SAFEGUARD OVERRIDE: Voice/text/fax messages should not be ignored.".

Definition rule_legal : rule :=
  mk_rule (fun subject _ =>
             any_in ["case"; "court"; "attorney"; "estate"; "v."; "vs.";
                     "plaintiff"; "defendant"] (lower subject))
          "respond"
          "SAFEGUARD OVERRIDE: Legal correspondence should not be ignored.".

Definition rule_bill : rule :=
  mk_rule (fun subject _ =>
             contains "bill" (lower subject) && contains "due" (lower subject))
          "notify"
          "SAFEGUARD OVERRIDE: Bills and payment notices should not be ignored.".

Definition rules : list rule := [rule_message; rule_legal; rule_bill].

Definition apply_rule (subject sender : string) (cr : string * string) (r : rule)
  : string * string :=
  if (fst cr =? "ignore") && holds r subject sender
  then (forced r, note r ++ nl ++ "Original reasoning: " ++ snd cr)
  else cr.

Definition safeguard_policy (cr : string * string) (subject sender : string)
  : string * string :=
  fold_left (apply_rule subject sender) rules cr.

(** Steps 1 to 3 of the orchestrator (spec 4.4): the verdict of the
    fast path, or else of the parsed LLM answer. *)
Definition unguarded_verdict (self : EmailTriageAgent) (subject body sender : pyarg)
  : result (string * string) :=
  match _analyze_email_indicators self subject body sender with
  | (Some c, confidence, reason) =>
      if Qle_bool 0.9%Q confidence
      then Return (c, "Automatic categorization: " ++ reason)
      else raw <- crew_kickoff self (email_content subject body sender) ;;
           Return (parse_result raw)
  | (None, _, _) =>
      raw <- crew_kickoff self (email_content subject body sender) ;;
      Return (parse_result raw)
  end.

(** Steps 1 to 5: the Safeguard Policy is run on the verdict of either
    path. *)
Definition classify (self : EmailTriageAgent) (subject : string) (body : pyarg)
    (sender : string) : result (string * string) :=
  cr <- unguarded_verdict self (Some subject) body (Some sender) ;;
  Return (safeguard_policy cr subject sender).

End Spec.


(** ** Sample agents *)

(** An agent whose crew answers [raw] to every email. *)
Definition answering (raw : string) : EmailTriageAgent :=
  mk_agent [] (fun _ => Return raw).

(** An agent whose crew call raises [e]. *)
Definition failing (e : exn) : EmailTriageAgent :=
  mk_agent [] (fun _ => Raise e).

(** ** Further Python string primitives *)

Module PyText.

(** [s.find(c)] for a one-character [c]: the index of its first
    occurrence, or -1. *)
Fixpoint find_char (c : ascii) (s : string) : Z :=
  match s with
  | EmptyString => (-1)%Z
  | String x s' =>
      if Ascii.eqb x c then 0%Z
      else let i := find_char c s' in
           if (i <? 0)%Z then (-1)%Z else (i + 1)%Z
  end.

(** A slice bound brought into [0, len]: negative bounds count from the
    end. *)
Definition clamp (len i : Z) : Z :=
  if (i <? 0)%Z then Z.max 0 (i + len) else Z.min i len.

(** [s[a:b]] *)
Definition slice (s : string) (a b : Z) : string :=
  let len := Z.of_nat (String.length s) in
  let a' := clamp len a in
  let b' := clamp len b in
  substring (Z.to_nat a') (Z.to_nat (b' - a')) s.

(** The pieces of [s] between occurrences of [c]: the first piece and
    the list of the others. *)
Fixpoint split_parts (c : ascii) (s : string) : string * list string :=
  match s with
  | EmptyString => (EmptyString, [])
  | String x s' =>
      let '(h, t) := split_parts c s' in
      if Ascii.eqb x c then (EmptyString, h :: t) else (String x h, t)
  end.

(** [s.split(c)] for a one-character separator [c]. *)
Definition split_char (c : ascii) (s : string) : list string :=
  let '(h, t) := split_parts c s in h :: t.

(** [sep.join(parts)] *)
Definition join (sep : string) (parts : list string) : string :=
  String.concat sep parts.

(** The words of [s] read from the left: the word that starts [s] (empty
    when [s] starts with whitespace) and the words after it. *)
Fixpoint words_parts (s : string) : string * list string :=
  match s with
  | EmptyString => (EmptyString, [])
  | String x s' =>
      let '(w, ws) := words_parts s' in
      if isspace x then (EmptyString, if w =? "" then ws else w :: ws)
      else (String x w, ws)
  end.

(** [s.split()]: the maximal runs of non-whitespace characters. *)
Definition words (s : string) : list string :=
  let '(w, ws) := words_parts s in if w =? "" then ws else w :: ws.

End PyText.

Import PyText.

(** ** scripts/gmail_sync.py: addresses and storage *)

Module gmail_store.

(** [clean_email_address(addr)] *)
Definition clean_email_address (addr : pyarg) : string :=
  match addr with
  | None => ""
  | Some a =>
      if negb (truthy addr) then ""
      else if contains "<" a && contains ">" a then
        let start := (find_char "<" a + 1)%Z in
        let end_ := find_char ">" a in
        strip (slice a start end_)
      else strip a
  end.

(** [parse_email_addresses(addr_str)] *)
Definition parse_email_addresses (addr_str : pyarg) : list string :=
  match addr_str with
  | None => []
  | Some s =>
      if negb (truthy addr_str) then []
      else map (fun addr => clean_email_address (Some addr))
               (filter (fun addr => negb (strip addr =? ""))
                       (split_char "," s))
  end.

(** The email dict that [fetch_emails] builds; every key is set there. *)
Record email_obj : Type := mk_email {
  gmail_id : string;
  subject : string;
  sender : string;
  recipient : list string;
  cc : list string;
  bcc : list string;
  body : string;
  date : string;
  category : string;
  triage_reasoning : string;
  reprocessed : bool
}.

(** The row that [store_emails] inserts. *)
Record email_row : Type := mk_row {
  row_subject : string;
  row_sender : string;
  row_recipient : list string;
  row_cc : list string;
  row_bcc : list string;
  row_body : string;
  row_gmail_id : string;
  row_received_date : string;
  row_category : string;
  row_triage_reasoning : string;
  row_processing_status : string
}.

(** The two requests [store_emails] sends to the "emails" table. *)
Inductive db_request : Type :=
| Update (category triage_reasoning : string) (eq_gmail_id : string)
| Insert (row : email_row).

(** The five counters of [store_emails]. *)
Record counters : Type := mk_counters {
  success_count : nat;
  skip_count : nat;
  fail_count : nat;
  ignored_count : nat;
  updated_count : nat
}.

Section Store.

(** The database behind the client: [execute db rq] gives the database
    after the request and either the truth value of [response.data] or
    the exception raised. *)
Variable database : Type.
Variable execute : database -> db_request -> database * result bool.

(** The state of the loop: the database, the requests sent so far (oldest
    first) and the counters. *)
Definition loop_state : Type := database * list db_request * counters.

Definition count_request (ok_counter : counters -> counters) (n : counters)
    (r : result bool) : counters :=
  match r with
  | Return true => ok_counter n
  | Return false =>
      mk_counters (success_count n) (skip_count n) (S (fail_count n))
                  (ignored_count n) (updated_count n)
  | Raise _ =>
      mk_counters (success_count n) (skip_count n) (S (fail_count n))
                  (ignored_count n) (updated_count n)
  end.

(** One turn of the [for email in emails] loop. *)
Definition store_email (st : loop_state) (email : email_obj) : loop_state :=
  let '(db, sent, n) := st in
  let is_reprocessed := reprocessed email in
  if (category email =? "ignore") && negb is_reprocessed then
    (db, sent,
     mk_counters (success_count n) (skip_count n) (fail_count n)
                 (S (ignored_count n)) (updated_count n))
  else if is_reprocessed then
    let rq := Update (category email) (take 1000 (triage_reasoning email))
                     (gmail_id email) in
    let '(db', r) := execute db rq in
    (db', (sent ++ [rq])%list,
     count_request
       (fun n => mk_counters (success_count n) (skip_count n) (fail_count n)
                             (ignored_count n) (S (updated_count n)))
       n r)
  else
    let rq := Insert (mk_row (subject email) (sender email) (recipient email)
                             (cc email) (bcc email) (body email)
                             (gmail_id email) (date email) (category email)
                             (take 1000 (triage_reasoning email)) "pending") in
    let '(db', r) := execute db rq in
    (db', (sent ++ [rq])%list,
     count_request
       (fun n => mk_counters (S (success_count n)) (skip_count n) (fail_count n)
                             (ignored_count n) (updated_count n))
       n r).

(** The loop of [store_emails], from zeroed counters. *)
Definition store_loop (db : database) (emails : list email_obj) : loop_state :=
  fold_left store_email emails (db, [], mk_counters 0 0 0 0 0).

(** [store_emails(emails, reprocess_all)]: the tuple returned (four
    counters, or five when reprocessing), the database and the requests
    sent. *)
Definition store_emails (db : database) (emails : list email_obj)
    (reprocess_all : bool) : list nat * database * list db_request :=
  let '(db', sent, n) := store_loop db emails in
  (if reprocess_all
   then [success_count n; skip_count n; fail_count n; ignored_count n;
         updated_count n]
   else [success_count n; skip_count n; fail_count n; ignored_count n],
   db', sent).

End Store.

Arguments store_email {database} execute st email.
Arguments store_loop {database} execute db emails.
Arguments store_emails {database} execute db emails reprocess_all.

End gmail_store.

(** ** scripts/email_triage_agent.py: the instruction texts *)

Module instructions.

(** The cleaning of one instruction text in [_create_agent]:
    ["\n".join([line.strip() for line in text.split("\n") if line.strip()])]. *)
Definition clean_instruction (text : string) : string :=
  join nl (map strip
               (filter (fun line => negb (strip line =? ""))
                       (split_char "010" text))).

(** The loop [for key in self.triage_instructions] of [_create_agent]
    over the dict, as the list of its items. *)
Definition clean_instructions (d : list (string * string)) : list (string * string) :=
  map (fun kv => (fst kv, clean_instruction (snd kv))) d.

End instructions.

(** ** Predicates on texts *)

Module Text.

(** No character of [s] is whitespace. *)
Fixpoint no_space (s : string) : bool :=
  match s with
  | EmptyString => true
  | String c s' => negb (isspace c) && no_space s'
  end.

(** [s] is a word: not empty, and without whitespace. *)
Definition is_word (s : string) : bool := negb (s =? "") && no_space s.

(** The character [c] does not occur in [s]. *)
Fixpoint no_char (c : ascii) (s : string) : bool :=
  match s with
  | EmptyString => true
  | String x s' => negb (Ascii.eqb x c) && no_char c s'
  end.

(** [s] has neither leading nor trailing whitespace. *)
Definition trimmed (s : string) : Prop := strip s = s.

(** A plain address: not empty, trimmed, without comma and without [<]. *)
Definition plain_address (a : string) : Prop :=
  a <> "" /\ trimmed a /\ no_char "," a = true /\ no_char "<" a = true.

End Text.

(** ** scripts/process_emails.py: chunks *)

Module process_emails.

(** The [for word in words] loop of [split_into_chunks] and the final
    [if current_chunk]. *)
Fixpoint chunk_loop (chunk_size : Z) (words : list string)
    (chunks current_chunk : list string) (current_length : nat) : list string :=
  match words with
  | [] =>
      match current_chunk with
      | [] => chunks
      | _ :: _ => (chunks ++ [join " " current_chunk])%list
      end
  | word :: rest =>
      if (chunk_size <? Z.of_nat (current_length + String.length word + 1))%Z
         && match current_chunk with [] => false | _ :: _ => true end
      then chunk_loop chunk_size rest
             (chunks ++ [join " " current_chunk])%list [word] (String.length word)
      else chunk_loop chunk_size rest chunks
             (current_chunk ++ [word])%list
             (current_length + String.length word + 1)
  end.

(** [split_into_chunks(text, chunk_size)] *)
Definition split_into_chunks (text : pyarg) (chunk_size : Z) : list string :=
  match text with
  | None => [""]
  | Some t =>
      if negb (truthy text) then [""]
      else chunk_loop chunk_size (words t) [] [] 0
  end.

End process_emails.

(** ** Sample emails and a sample database *)

(** An email as [fetch_emails] builds it. *)
Definition sample_email (id category reasoning : string) (reprocessed : bool)
  : gmail_store.email_obj :=
  gmail_store.mk_email id "Lunch on Friday?" "janedoe@gmail.com"
    ["aaron@whaleylawfirm.com"] [] [] "See you at noon."
    "2025-03-14T09:26:53" category reasoning reprocessed.

(** A database that accepts every request. *)
Definition accepting_db (db : unit) (rq : gmail_store.db_request)
  : unit * result bool :=
  (db, Return true).

(** ** What the storage loop keeps true *)

Module StoreSpec.
Import gmail_store.

(** After [visited] emails: every email was counted once, nothing was
    counted as skipped, one request was sent for each email not ignored,
    and every row inserted is a pending row of a category other than
    "ignore" with a reasoning of at most 1000 characters. *)
Definition store_invariant {database : Type} (visited : nat)
    (st : loop_state database) : Prop :=
  let '(_, sent, n) := st in
  success_count n + fail_count n + ignored_count n + updated_count n = visited
  /\ skip_count n = 0
  /\ List.length sent = success_count n + fail_count n + updated_count n
  /\ forall row, In (Insert row) sent ->
       row_category row <> "ignore"
       /\ row_processing_status row = "pending"
       /\ String.length (row_triage_reasoning row) <= 1000.

(** No update was sent or counted. *)
Definition insert_only {database : Type} (st : loop_state database) : Prop :=
  let '(_, sent, n) := st in
  updated_count n = 0
  /\ forall rq, In rq sent -> exists row, rq = Insert row.

End StoreSpec.

(** * Properties *)

(** ** Facts about the string primitives *)

Section StringFacts.

Lemma prefix_iff (t s : string) :
  prefix t s = true <-> exists post, s = t ++ post.
Proof.
  revert s; induction t as [|a t IH]; intros s.
  - destruct s; simpl; split; eauto.
  - destruct s as [|b s]; simpl.
    + split; [discriminate | intros [post H]; discriminate].
    + destruct (ascii_dec a b) as [->|Hne].
      * rewrite IH. split; intros [post H]; exists post.
        -- now rewrite H.
        -- now injection H.
      * split; [discriminate | intros [post H]; injection H; intros _ Hab; now symmetry in Hab].
Qed.

Lemma contains_unfold (t s : string) :
  contains t s
  = prefix t s
    || match s with
       | EmptyString => false
       | String _ s' => contains t s'
       end.
Proof. destruct s; reflexivity. Qed.

Lemma contains_iff (t s : string) : contains t s = true <-> Spec.occurs t s.
Proof.
  unfold Spec.occurs. split.
  - induction s as [|c s IH]; rewrite contains_unfold, orb_true_iff; intros [H|H].
    + apply prefix_iff in H. destruct H as [post H]. now exists "", post.
    + discriminate.
    + apply prefix_iff in H. destruct H as [post H]. now exists "", post.
    + destruct (IH H) as (pre & post & ->). now exists (String c pre), post.
  - intros (pre & post & ->). induction pre as [|c pre IH].
    + rewrite contains_unfold.
      assert (H : prefix t (t ++ post) = true) by (apply prefix_iff; eauto).
      simpl. now rewrite H.
    + change (String c pre ++ t ++ post) with (String c (pre ++ t ++ post)).
      rewrite contains_unfold, IH. apply orb_true_r.
Qed.

Lemma lower_app (a b : string) : lower (a ++ b) = lower a ++ lower b.
Proof. induction a as [|x a IH]; simpl; [reflexivity | now rewrite IH]. Qed.

Lemma lower_unapp (s a b : string) :
  lower s = a ++ b -> exists s1 s2, s = s1 ++ s2 /\ lower s1 = a /\ lower s2 = b.
Proof.
  revert s; induction a as [|x a IH]; intros s H.
  - exists "", s. auto.
  - destruct s as [|c s]; [discriminate|].
    simpl in H. injection H as Hc Hs.
    destruct (IH _ Hs) as (s1 & s2 & -> & H1 & H2).
    exists (String c s1), s2. simpl. now rewrite Hc, H1.
Qed.

(** Case-insensitive occurrence is what the code tests with
    [t in s.lower()]. *)
Lemma occurs_nocase_iff (t s : string) :
  Spec.occurs_nocase t s <-> contains (lower t) (lower s) = true.
Proof.
  rewrite contains_iff. unfold Spec.occurs_nocase, Spec.occurs. split.
  - intros (pre & mid & post & -> & H).
    exists (lower pre), (lower post). now rewrite !lower_app, H.
  - intros (a & b & H).
    apply lower_unapp in H. destruct H as (pre & rest & -> & _ & H).
    apply lower_unapp in H. destruct H as (mid & post & -> & H & _).
    now exists pre, mid, post.
Qed.

Lemma isspace_lower_char (c : ascii) : isspace (lower_char c) = isspace c.
Proof. destruct c as [[] [] [] [] [] [] [] []]; reflexivity. Qed.

Lemma lower_empty (s : string) : (lower s =? "") = (s =? "").
Proof. destruct s; reflexivity. Qed.

Lemma lstrip_lower (s : string) : lstrip (lower s) = lower (lstrip s).
Proof.
  induction s as [|c s IH]; simpl; [reflexivity|].
  rewrite isspace_lower_char. now destruct (isspace c).
Qed.

Lemma rstrip_lower (s : string) : rstrip (lower s) = lower (rstrip s).
Proof.
  induction s as [|c s IH]; simpl; [reflexivity|].
  rewrite isspace_lower_char, IH, lower_empty.
  now destruct (isspace c && (rstrip s =? "")).
Qed.

Lemma strip_lower (s : string) : strip (lower s) = lower (strip s).
Proof. unfold strip. now rewrite lstrip_lower, rstrip_lower. Qed.

Lemma break_nl_first_line (s : string) : fst (break_nl s) = Spec.first_line s.
Proof.
  induction s as [|c s IH]; simpl; [reflexivity|].
  destruct (Ascii.eqb c "010"); [reflexivity|].
  destruct (break_nl s); simpl in *. now rewrite IH.
Qed.

Lemma split1_first_line (s : string) :
  exists rest, split1 s = Spec.first_line s :: rest.
Proof.
  unfold split1. rewrite <- break_nl_first_line.
  destruct (break_nl s) as [h [t|]]; simpl; eauto.
Qed.

Lemma lower_or_empty_Some (s : string) : lower_or_empty (Some s) = lower s.
Proof. destruct s; reflexivity. Qed.

End StringFacts.


Example lower_ex : lower "Voice Message from RingCentral" = "voice message from ringcentral".
Proof. reflexivity. Qed.

Example strip_ex : strip ("  ignore " ++ nl) = "ignore".
Proof. reflexivity. Qed.

Example count_ex : count "http" "http://a httphttp https" = 4.
Proof. reflexivity. Qed.

Example count_overlap_ex : count "aa" "aaaaa" = 2.
Proof. reflexivity. Qed.

Example split1_ex : split1 ("a" ++ nl ++ "b" ++ nl ++ "c") = ["a"; "b" ++ nl ++ "c"].
Proof. reflexivity. Qed.

Example split1_none_ex : split1 "abc" = ["abc"].
Proof. reflexivity. Qed.

(** ** The Indicator Matcher *)

Section IndicatorMatcher.

Variable self : EmailTriageAgent.

Lemma occurs_nocase_lower (t s : string) :
  lower t = t -> Spec.occurs_nocase t s -> contains t (lower s) = true.
Proof. intros Ht H. apply occurs_nocase_iff in H. now rewrite Ht in H. Qed.

Lemma message_terms_hit (subject : string) :
  Spec.occurs_nocase "voice message" subject
  \/ Spec.occurs_nocase "text message" subject
  \/ Spec.occurs_nocase "fax" subject ->
  any_in message_terms (lower subject) = true.
Proof.
  unfold any_in, message_terms. cbn [existsb]. rewrite !orb_true_iff.
  intros [H|[H|H]]; apply occurs_nocase_lower in H; auto.
Qed.

(** Rule 1 of the matcher. *)
Lemma analyze_ringcentral (subject sender : string) (body : pyarg) :
  any_in message_terms (lower subject) = true ->
  contains "ringcentral" (lower sender) = true ->
  _analyze_email_indicators self (Some subject) body (Some sender)
  = (Some "notify", 0.95%Q, "Message notification from RingCentral").
Proof.
  intros Hm Hr. unfold _analyze_email_indicators.
  rewrite !lower_or_empty_Some, Hm, Hr. reflexivity.
Qed.

(** Rule 2 of the matcher, reached or not. *)
Lemma analyze_bill (subject : string) (body sender : pyarg) :
  (contains "bill" (lower subject) && contains "due" (lower subject))
  || contains "payment required" (lower subject) = true ->
  exists reason,
    _analyze_email_indicators self (Some subject) body sender
    = (Some "notify", 0.95%Q, reason).
Proof.
  intros Hb. unfold _analyze_email_indicators.
  rewrite lower_or_empty_Some, Hb.
  destruct (any_in message_terms (lower subject)
            && contains "ringcentral" (lower_or_empty sender)); eauto.
Qed.

(** Rule 3 of the matcher, reached or not: a legal indicator in the
    subject gives "notify" or "respond". *)
Lemma analyze_legal (subject : string) (body sender : pyarg) (t : string) :
  In t legal_indicators ->
  contains t (lower subject) = true ->
  exists c reason,
    _analyze_email_indicators self (Some subject) body sender
    = (Some c, 0.95%Q, reason)
    /\ (c = "notify" \/ c = "respond").
Proof.
  intros Hin Ht. unfold _analyze_email_indicators.
  rewrite lower_or_empty_Some.
  destruct (any_in message_terms (lower subject)
            && contains "ringcentral" (lower_or_empty sender)); [eauto 6|].
  destruct ((contains "bill" (lower subject) && contains "due" (lower subject))
            || contains "payment required" (lower subject)); [eauto 6|].
  destruct (find (fun indicator => contains indicator (lower subject))
                 legal_indicators) eqn:Hf; [eauto 6|].
  apply find_none with (x := t) in Hf; [congruence | assumption].
Qed.

Lemma filter_verdict_cases (sl bl fl : string) :
  (exists reason, filter_verdict sl bl fl = (Some "ignore", 0.9%Q, reason))
  \/ filter_verdict sl bl fl
     = (None, 0%Q, "No conclusive indicators found, need AI analysis").
Proof.
  unfold filter_verdict.
  destruct (any (platform_indicators sl bl fl));
    [destruct (platform_scan 0 (platform_indicators sl bl fl)); [eauto|]|];
    destruct (any (marketing_indicators sl bl)); eauto.
Qed.

(** The matcher gives no verdict (category [None], confidence 0), or
    one of the three categories with a confidence of 0.9 or 0.95. *)
Lemma analyze_cases (subject body sender : pyarg) :
  (exists reason,
      _analyze_email_indicators self subject body sender = (None, 0%Q, reason))
  \/ (exists c confidence reason,
        _analyze_email_indicators self subject body sender
        = (Some c, confidence, reason)
        /\ Spec.is_category c
        /\ (confidence = 0.9%Q \/ confidence = 0.95%Q)).
Proof.
  unfold _analyze_email_indicators, Spec.is_category.
  destruct (any_in message_terms (lower_or_empty subject)
            && contains "ringcentral" (lower_or_empty sender));
    [right; eauto 10|].
  destruct ((contains "bill" (lower_or_empty subject)
             && contains "due" (lower_or_empty subject))
            || contains "payment required" (lower_or_empty subject));
    [right; eauto 10|].
  destruct (find _ legal_indicators); [right; eauto 10|].
  destruct (any_in team_domains (lower_or_empty sender)); [right; eauto 10|].
  destruct (filter_verdict_cases (lower_or_empty subject) (lower_or_empty body)
              (lower_or_empty sender)) as [[reason ->] | ->];
    [right; eauto 10 | left; eauto].
Qed.

End IndicatorMatcher.

(** ** The orchestrator: fast path *)

Section FastPath.

Variable self : EmailTriageAgent.

(** A verdict of the matcher with confidence 0.95 is returned as it is,
    under the "Automatic categorization" prefix, without running the crew. *)
Lemma triage_fast (subject body sender : pyarg) (c reason : string) :
  _analyze_email_indicators self subject body sender = (Some c, 0.95%Q, reason) ->
  c = "notify" \/ c = "respond" ->
  triage_email self subject body sender
  = Return (c, "Automatic categorization: " ++ reason).
Proof.
  intros H Hc. unfold triage_email. rewrite H.
  destruct Hc as [-> | ->]; reflexivity.
Qed.

Lemma legal_terms_are_indicators (t : string) :
  In t legal_terms -> In t legal_indicators /\ lower t = t.
Proof.
  unfold legal_terms, legal_indicators. cbn [In].
  intros H; repeat destruct H as [<- | H]; try contradiction;
    (split; [tauto | reflexivity]).
Qed.

(** C1: when the sender contains "ringcentral" and the subject contains
    "voice message", "text message" or "fax" (letter case ignored),
    [triage_email] returns category "notify", whatever the crew would
    answer and whatever the body is. *)
Theorem triage_ringcentral_message_is_notify
    (subject sender : string) (body : pyarg) :
  Spec.occurs_nocase "ringcentral" sender ->
  Spec.occurs_nocase "voice message" subject
  \/ Spec.occurs_nocase "text message" subject
  \/ Spec.occurs_nocase "fax" subject ->
  exists reasoning,
    triage_email self (Some subject) body (Some sender)
    = Return ("notify", reasoning).
Proof.
  intros Hr Hm.
  apply occurs_nocase_lower in Hr; [|reflexivity].
  apply message_terms_hit in Hm.
  eexists. apply triage_fast; [|now left].
  now apply analyze_ringcentral.
Qed.

(** C2: when the subject contains one of the safeguard's legal terms
    (letter case ignored), [triage_email] returns normally with a
    category other than "ignore", whatever the crew would answer. *)
Theorem triage_legal_subject_never_ignore
    (subject : string) (body sender : pyarg) (term : string) :
  In term legal_terms ->
  Spec.occurs_nocase term subject ->
  exists category reasoning,
    triage_email self (Some subject) body sender = Return (category, reasoning)
    /\ category <> "ignore".
Proof.
  intros Hin Hocc.
  destruct (legal_terms_are_indicators term Hin) as [Hind Hlow].
  apply occurs_nocase_lower in Hocc; [|assumption].
  destruct (analyze_legal self subject body sender term Hind Hocc)
    as (c & reason & Ha & Hc).
  exists c, ("Automatic categorization: " ++ reason). split.
  - now apply triage_fast.
  - destruct Hc as [-> | ->]; discriminate.
Qed.

(** C3: when the subject contains both "bill" and "due" (letter case
    ignored), [triage_email] returns category "notify", whatever the
    crew would answer. *)
Theorem triage_bill_due_is_notify (subject : string) (body sender : pyarg) :
  Spec.occurs_nocase "bill" subject ->
  Spec.occurs_nocase "due" subject ->
  exists reasoning,
    triage_email self (Some subject) body sender = Return ("notify", reasoning).
Proof.
  intros Hb Hd.
  apply occurs_nocase_lower in Hb; [|reflexivity].
  apply occurs_nocase_lower in Hd; [|reflexivity].
  destruct (analyze_bill self subject body sender) as [reason Ha].
  - now rewrite Hb, Hd.
  - eexists. apply triage_fast; [exact Ha | now left].
Qed.

(** C10: when the lower-cased subject contains "payment required", the
    matcher returns category "notify" with confidence 0.95; "bill" and
    "due" need not occur. *)
Theorem analyze_payment_required_is_notify
    (subject : string) (body sender : pyarg) :
  Spec.occurs "payment required" (lower subject) ->
  exists reason,
    _analyze_email_indicators self (Some subject) body sender
    = (Some "notify", 0.95%Q, reason).
Proof.
  intros H. apply contains_iff in H.
  apply analyze_bill. rewrite H. apply orb_true_r.
Qed.

End FastPath.

(** A fax notice from RingCentral, with a crew that would say "ignore". *)
Lemma triage_ringcentral_message_is_notify_witness :
  Spec.occurs_nocase "ringcentral" "RingCentral <notify@RingCentral.com>"
  /\ Spec.occurs_nocase "fax" "New Fax Message from (502) 555-0100"
  /\ exists reasoning,
       triage_email (answering "ignore")
         (Some "New Fax Message from (502) 555-0100") None
         (Some "RingCentral <notify@RingCentral.com>")
       = Return ("notify", reasoning).
Proof.
  assert (Hr : Spec.occurs_nocase "ringcentral" "RingCentral <notify@RingCentral.com>")
    by (exists "", "RingCentral", " <notify@RingCentral.com>"; split; reflexivity).
  assert (Hf : Spec.occurs_nocase "fax" "New Fax Message from (502) 555-0100")
    by (exists "New ", "Fax", " Message from (502) 555-0100"; split; reflexivity).
  split; [exact Hr|]. split; [exact Hf|].
  apply (triage_ringcentral_message_is_notify (answering "ignore")
           "New Fax Message from (502) 555-0100"
           "RingCentral <notify@RingCentral.com>" None Hr).
  right; right; exact Hf.
Defined.

(** A subject with "vs." next to notification and digest signals. *)
Lemma triage_legal_subject_never_ignore_witness :
  exists category reasoning,
    triage_email (answering "ignore")
      (Some "Smith vs. Jones - NOTIFICATION digest") (Some "unsubscribe") None
    = Return (category, reasoning)
    /\ category <> "ignore".
Proof.
  apply (triage_legal_subject_never_ignore (answering "ignore")
           "Smith vs. Jones - NOTIFICATION digest" (Some "unsubscribe") None "vs.").
  - simpl; tauto.
  - exists "Smith ", "vs.", " Jones - NOTIFICATION digest"; split; reflexivity.
Defined.

(** A bill that is due, sent from a noreply address. *)
Lemma triage_bill_due_is_notify_witness :
  exists reasoning,
    triage_email (answering "ignore")
      (Some "Your Electric BILL is past DUE") None (Some "noreply@utility.com")
    = Return ("notify", reasoning).
Proof.
  apply (triage_bill_due_is_notify (answering "ignore")
           "Your Electric BILL is past DUE" None (Some "noreply@utility.com")).
  - exists "Your Electric ", "BILL", " is past DUE"; split; reflexivity.
  - exists "Your Electric BILL is past ", "DUE", ""; split; reflexivity.
Defined.

(** A subject with "payment required" and neither "bill" nor "due". *)
Lemma analyze_payment_required_is_notify_witness :
  contains "bill" (lower "Payment Required for order 1812") = false
  /\ contains "due" (lower "Payment Required for order 1812") = false
  /\ exists reason,
       _analyze_email_indicators (answering "ignore")
         (Some "Payment Required for order 1812") None None
       = (Some "notify", 0.95%Q, reason).
Proof.
  split; [reflexivity|]. split; [reflexivity|].
  apply (analyze_payment_required_is_notify (answering "ignore")
           "Payment Required for order 1812" None None).
  exists "", " for order 1812"; reflexivity.
Defined.

(** ** The answer parser *)

Section Parser.

Lemma parse_result_category (raw : string) :
  Spec.is_category (fst (parse_result raw)).
Proof.
  unfold parse_result, Spec.is_category.
  destruct (split1 (strip raw)) as [|part0 rest]; cbn [fst]; [tauto|].
  destruct (strip (lower part0) =? "ignore"); [cbn; tauto|].
  destruct (strip (lower part0) =? "notify"); [cbn; tauto|].
  destruct (strip (lower part0) =? "respond"); cbn; tauto.
Qed.

(** C7, as amended: the answer is trimmed as a whole before it is split
    at its first newline; when the first line of the trimmed answer,
    trimmed and lower-cased, is none of "ignore", "notify", "respond",
    the parsed category is "notify" and the reasoning says that the
    category could not be determined, quoting that line and the
    trimmed answer. *)
Theorem parse_result_defaults_to_notify (raw : string) :
  ~ Spec.is_category (lower (strip (Spec.first_line (strip raw)))) ->
  parse_result raw
  = ("notify",
     "Could not determine exact category from '"
       ++ lower (strip (Spec.first_line (strip raw)))
       ++ "', defaulting to 'notify'." ++ nl ++ strip raw).
Proof.
  intros Hnot. unfold parse_result.
  destruct (split1_first_line (strip raw)) as [rest ->].
  rewrite strip_lower.
  set (category_text := lower (strip (Spec.first_line (strip raw)))) in *.
  unfold Spec.is_category in Hnot.
  destruct (String.eqb_spec category_text "ignore"); [tauto|].
  destruct (String.eqb_spec category_text "notify"); [tauto|].
  destruct (String.eqb_spec category_text "respond"); [tauto|].
  reflexivity.
Qed.

End Parser.

(** C7, as stated, fails: the first line of the answer "\nignore" is
    empty, hence none of the three categories, yet the parsed category
    is "ignore", because the answer is trimmed before it is split. *)
Lemma parse_result_untrimmed_counterexample :
  ~ Spec.is_category (lower (strip (Spec.first_line (nl ++ "ignore"))))
  /\ fst (parse_result (nl ++ "ignore")) = "ignore"
  /\ fst (parse_result (nl ++ "ignore")) <> "notify".
Proof.
  split; [|split; [reflexivity | discriminate]].
  unfold Spec.is_category. cbn. intros [H|[H|H]]; discriminate.
Qed.

(** An answer whose first line is a sentence, not a category. *)
Lemma parse_result_defaults_to_notify_witness :
  parse_result ("  Ignore this one." ++ nl ++ "It is spam.  ")
  = ("notify",
     "Could not determine exact category from 'ignore this one.', defaulting to 'notify'."
       ++ nl ++ "Ignore this one." ++ nl ++ "It is spam.").
Proof.
  apply (parse_result_defaults_to_notify
           ("  Ignore this one." ++ nl ++ "It is spam.  ")).
  unfold Spec.is_category. cbn. intros [H|[H|H]]; discriminate.
Defined.

(** ** The safeguards *)

Section Safeguards.

Lemma any_in_lower_Some (terms : list string) (s : string) :
  any_in_lower terms (Some s) = Return (any_in terms (lower s)).
Proof.
  induction terms as [|t terms IH]; cbn; [reflexivity|].
  destruct (contains t (lower s)); [reflexivity | exact IH].
Qed.

Lemma safeguard_message_Some (cr : string * string) (subject sender : string) :
  safeguard_message cr (Some subject) (Some sender)
  = Return (Spec.apply_rule subject sender cr Spec.rule_message).
Proof.
  destruct cr as [c r]. unfold safeguard_message, Spec.apply_rule.
  rewrite any_in_lower_Some.
  cbn [fst snd Spec.holds Spec.forced Spec.note Spec.rule_message method_lower].
  fold message_terms.
  destruct (c =? "ignore"); [|reflexivity].
  destruct (any_in message_terms (lower subject)); [|reflexivity].
  cbn [bind andb]. now destruct (contains "ringcentral" (lower sender)).
Qed.

Lemma safeguard_legal_Some (cr : string * string) (subject sender : string) :
  safeguard_legal cr (Some subject)
  = Return (Spec.apply_rule subject sender cr Spec.rule_legal).
Proof.
  destruct cr as [c r]. unfold safeguard_legal, Spec.apply_rule.
  rewrite any_in_lower_Some.
  cbn [fst snd Spec.holds Spec.forced Spec.note Spec.rule_legal].
  fold legal_terms.
  destruct (c =? "ignore"); [|reflexivity].
  now destruct (any_in legal_terms (lower subject)).
Qed.

Lemma safeguard_bill_Some (cr : string * string) (subject sender : string) :
  safeguard_bill cr (Some subject)
  = Return (Spec.apply_rule subject sender cr Spec.rule_bill).
Proof.
  destruct cr as [c r]. unfold safeguard_bill, Spec.apply_rule.
  cbn [fst snd Spec.holds Spec.forced Spec.note Spec.rule_bill method_lower bind].
  destruct (c =? "ignore"); [|reflexivity].
  destruct (contains "bill" (lower subject)); [|reflexivity].
  now destruct (contains "due" (lower subject)).
Qed.

(** On a subject and a sender that are strings the three safeguard
    blocks never raise and compute the rule table of the policy. *)
Lemma apply_safeguards_Some (cr : string * string) (subject sender : string) :
  apply_safeguards cr (Some subject) (Some sender)
  = Return (Spec.safeguard_policy cr subject sender).
Proof.
  unfold apply_safeguards, Spec.safeguard_policy, Spec.rules.
  rewrite safeguard_message_Some. cbn [bind fold_left].
  rewrite (safeguard_legal_Some _ subject sender). cbn [bind].
  apply safeguard_bill_Some.
Qed.

Lemma apply_rule_category (subject sender : string) (cr : string * string)
    (r : Spec.rule) :
  In r Spec.rules ->
  Spec.is_category (fst cr) ->
  Spec.is_category (fst (Spec.apply_rule subject sender cr r)).
Proof.
  intros Hr Hc. unfold Spec.apply_rule.
  destruct ((fst cr =? "ignore") && Spec.holds r subject sender); [|exact Hc].
  unfold Spec.rules in Hr. cbn [In] in Hr. unfold Spec.is_category.
  destruct Hr as [<- | [<- | [<- | []]]]; cbn [fst Spec.forced Spec.rule_message
    Spec.rule_legal Spec.rule_bill]; tauto.
Qed.

Lemma safeguard_policy_category (cr : string * string) (subject sender : string) :
  Spec.is_category (fst cr) ->
  Spec.is_category (fst (Spec.safeguard_policy cr subject sender)).
Proof.
  unfold Spec.safeguard_policy.
  assert (Hall : forall r, In r Spec.rules -> In r Spec.rules) by auto.
  revert cr Hall. generalize Spec.rules at 1 3.
  induction l as [|r l IH]; intros cr Hall Hc; cbn [fold_left]; [exact Hc|].
  apply IH.
  - intros r' Hr'. apply Hall. now right.
  - apply apply_rule_category; [apply Hall; now left | exact Hc].
Qed.

(** A verdict on which no rule holds, or which is not "ignore", passes
    through the policy unchanged. *)
Lemma safeguard_policy_id (cr : string * string) (subject sender : string) :
  (fst cr = "ignore" ->
   forall r, In r Spec.rules -> Spec.holds r subject sender = false) ->
  Spec.safeguard_policy cr subject sender = cr.
Proof.
  unfold Spec.safeguard_policy. intros H.
  assert (Hstep : forall r, In r Spec.rules ->
                            Spec.apply_rule subject sender cr r = cr).
  { intros r Hr. unfold Spec.apply_rule.
    destruct (String.eqb_spec (fst cr) "ignore") as [He|]; [|reflexivity].
    now rewrite (H He r Hr). }
  revert Hstep. generalize Spec.rules.
  induction l as [|r l IH]; intros Hstep; cbn [fold_left]; [reflexivity|].
  rewrite Hstep by now left. apply IH. intros r' Hr'. apply Hstep. now right.
Qed.

(** When the matcher says "ignore", rules 1 to 3 of the matcher have
    not fired, so no rule of the policy holds. *)
Lemma analyze_ignore_no_rule (self : EmailTriageAgent) (subject sender : string)
    (body : pyarg) (confidence : Q) (reason : string) :
  _analyze_email_indicators self (Some subject) body (Some sender)
  = (Some "ignore", confidence, reason) ->
  forall r, In r Spec.rules -> Spec.holds r subject sender = false.
Proof.
  unfold _analyze_email_indicators. rewrite !lower_or_empty_Some.
  destruct (any_in message_terms (lower subject)
            && contains "ringcentral" (lower sender)) eqn:H1; [discriminate|].
  destruct ((contains "bill" (lower subject) && contains "due" (lower subject))
            || contains "payment required" (lower subject)) eqn:H2;
    [discriminate|].
  destruct (find (fun indicator => contains indicator (lower subject))
                 legal_indicators) eqn:H3; [discriminate|].
  intros _ r Hr. unfold Spec.rules in Hr. cbn [In] in Hr.
  destruct Hr as [<- | [<- | [<- | []]]];
    cbn [Spec.holds Spec.rule_message Spec.rule_legal Spec.rule_bill].
  - exact H1.
  - unfold any_in. cbn [existsb].
    pose proof (find_none _ _ H3) as Hnone. cbn beta in Hnone.
    rewrite !Hnone by (unfold legal_indicators; cbn [In]; tauto).
    reflexivity.
  - apply orb_false_iff in H2. tauto.
Qed.

End Safeguards.

(** ** The orchestrator: both paths *)

Section Orchestrator.

Variable self : EmailTriageAgent.

Lemma is_category_truthy (c : string) :
  Spec.is_category c -> truthy (Some c) = true.
Proof. intros [-> | [-> | ->]]; reflexivity. Qed.

Lemma Qle_bool_confidence (confidence : Q) :
  confidence = 0.9%Q \/ confidence = 0.95%Q -> Qle_bool 0.9%Q confidence = true.
Proof. intros [-> | ->]; reflexivity. Qed.

(** Whatever the matcher returns, [triage_email] is either the fast
    path on a verdict of the matcher or the crew followed by the
    safeguards. *)
Lemma triage_email_paths (subject body sender : pyarg) :
  (exists c confidence reason,
      _analyze_email_indicators self subject body sender
      = (Some c, confidence, reason)
      /\ Spec.is_category c
      /\ triage_email self subject body sender
         = Return (c, "Automatic categorization: " ++ reason))
  \/ (exists reason,
        _analyze_email_indicators self subject body sender = (None, 0%Q, reason)
        /\ triage_email self subject body sender
           = llm_triage self subject body sender).
Proof.
  destruct (analyze_cases self subject body sender)
    as [[reason H] | (c & confidence & reason & H & Hc & Hq)].
  - right. exists reason. split; [exact H|]. unfold triage_email. now rewrite H.
  - left. exists c, confidence, reason. split; [exact H|]. split; [exact Hc|].
    unfold triage_email. rewrite H.
    now rewrite (is_category_truthy c Hc), (Qle_bool_confidence confidence Hq).
Qed.

(** C5: on a subject and a sender that are strings, and for every text
    the crew answers, [triage_email] returns a pair whose category is
    "ignore", "notify" or "respond". *)
Theorem triage_category_valid
    (subject sender : string) (body : pyarg) (raw : string) :
  crew_kickoff self (email_content (Some subject) body (Some sender)) = Return raw ->
  exists category reasoning,
    triage_email self (Some subject) body (Some sender)
    = Return (category, reasoning)
    /\ Spec.is_category category.
Proof.
  intros Hraw.
  destruct (triage_email_paths (Some subject) body (Some sender))
    as [(c & confidence & reason & _ & Hc & ->) | (reason & _ & ->)].
  - eauto.
  - unfold llm_triage. rewrite Hraw. cbn [bind].
    rewrite apply_safeguards_Some.
    destruct (Spec.safeguard_policy (parse_result raw) subject sender)
      as [category reasoning] eqn:Hp.
    exists category, reasoning. split; [reflexivity|].
    change category with (fst (category, reasoning)). rewrite <- Hp.
    apply safeguard_policy_category, parse_result_category.
Qed.

(** With a subject and a sender that are strings the result of
    [triage_email] agrees with the rule table run on the verdict of
    either path; the equation alone does not tell on which path the
    safeguard block is run. *)
Lemma triage_email_classify
    (subject sender : string) (body : pyarg) :
  triage_email self (Some subject) body (Some sender)
  = Spec.classify self subject body sender.
Proof.
  unfold Spec.classify, Spec.unguarded_verdict.
  destruct (triage_email_paths (Some subject) body (Some sender))
    as [(c & confidence & reason & Ha & Hc & ->) | (reason & Ha & ->)];
    rewrite Ha.
  - destruct (analyze_cases self (Some subject) body (Some sender))
      as [[reason' H] | (c' & confidence' & reason' & H & _ & Hq)];
      [congruence|].
    rewrite Ha in H. injection H as <- <- <-.
    rewrite (Qle_bool_confidence confidence Hq). cbn [bind].
    rewrite safeguard_policy_id; [reflexivity|].
    cbn [fst]. intros ->. exact (analyze_ignore_no_rule _ _ _ _ _ _ Ha).
  - unfold llm_triage.
    destruct (crew_kickoff self (email_content (Some subject) body (Some sender)));
      cbn [bind]; [apply apply_safeguards_Some | reflexivity].
Qed.


(** C8: the verdict of the matcher is a function of subject, body and
    sender alone: no state of the agent (its instructions, its crew)
    enters it, so a second call on the same three inputs, on this or
    any other agent, returns the same triple. *)
Theorem analyze_depends_on_inputs_only
    (other : EmailTriageAgent) (subject body sender : pyarg) :
  _analyze_email_indicators self subject body sender
  = _analyze_email_indicators other subject body sender.
Proof. reflexivity. Qed.

End Orchestrator.

(** An email of the fallback path answered "IGNORE" by the crew. *)
Lemma triage_category_valid_witness :
  exists category reasoning,
    triage_email (answering "IGNORE") (Some "Lunch on Friday?") (Some "")
      (Some "janedoe@gmail.com")
    = Return (category, reasoning)
    /\ Spec.is_category category.
Proof.
  apply (triage_category_valid (answering "IGNORE") "Lunch on Friday?"
           "janedoe@gmail.com" (Some "") "IGNORE").
  reflexivity.
Defined.



(** ** Missing input fields *)

(** C9 fails on the code: with no subject (and no matcher verdict from
    body or sender) an answer "ignore" of the crew reaches the first
    safeguard, whose [subject.lower()] raises [AttributeError]. *)
Theorem triage_none_subject_raises (instructions : list (string * string)) :
  triage_email (mk_agent instructions (fun _ => Return "ignore")) None None None
  = Raise (mk_exn "AttributeError" "'NoneType' object has no attribute 'lower'").
Proof. reflexivity. Qed.

(** The same slip on the sender: a subject that mentions a fax, no
    sender, and an answer "ignore". *)
Lemma triage_none_sender_raises :
  triage_email (answering "ignore") (Some "Fax received") (Some "") None
  = Raise (mk_exn "AttributeError" "'NoneType' object has no attribute 'lower'").
Proof. reflexivity. Qed.

(** The matcher itself guards every field, and a missing body alone
    never raises. *)
Lemma triage_none_body_returns :
  triage_email (answering "ignore") (Some "Lunch on Friday?") None
    (Some "janedoe@gmail.com")
  = Return ("ignore", "No reasoning provided").
Proof. reflexivity. Qed.

(** Empty strings in all three fields are tolerated. *)
Lemma triage_empty_fields_return :
  triage_email (answering "ignore") (Some "") (Some "") (Some "")
  = Return ("ignore", "No reasoning provided").
Proof. reflexivity. Qed.

(** ** Failure of the crew *)

Section CrewFailure.
Import gmail_sync.

Variable email_triage_flow : EmailTriageFlow.

(** On the fallback path an exception of the crew leaves
    [EmailTriageAgent.triage_email] as it is. *)
Lemma triage_email_propagates (self : EmailTriageAgent)
    (subject body sender : pyarg) (e : exn) :
  Spec.takes_fallback self subject body sender ->
  crew_kickoff self (email_content subject body sender) = Raise e ->
  email_triage_agent.triage_email self subject body sender = Raise e.
Proof.
  unfold Spec.takes_fallback, email_triage_agent.triage_email, llm_triage.
  destruct (_analyze_email_indicators self subject body sender)
    as [[pre_category confidence] pre_reasoning].
  intros Hf He. rewrite Hf, He. now destruct pre_category.
Qed.

(** C4, as amended: on the fallback path an exception raised by the
    crew is not caught in [EmailTriageAgent.triage_email], which
    propagates it; it is caught in the [triage_email] wrapper of
    gmail_sync, which returns category "notify" and the reasoning
    "Triage failed with error: " followed by the text of the
    exception. *)
Theorem crew_exception_caught_by_wrapper
    (subject body sender : string) (e : exn) :
  Spec.takes_fallback (triage_agent email_triage_flow)
    (Some subject) (Some body) (Some sender) ->
  crew_kickoff (triage_agent email_triage_flow)
    (email_content (Some subject) (Some body) (Some sender)) = Raise e ->
  email_triage_agent.triage_email (triage_agent email_triage_flow)
    (Some subject) (Some body) (Some sender) = Raise e
  /\ fst (gmail_sync.triage_email email_triage_flow
            (Some subject) (Some body) (Some sender))
     = Return ("notify", "Triage failed with error: " ++ str_exn e).
Proof.
  intros Hf He.
  pose proof (triage_email_propagates _ _ _ _ _ Hf He) as Hp.
  split; [exact Hp|].
  unfold gmail_sync.triage_email, kickoff, process_email.
  cbn [state triage_agent email_subject email_body email_sender].
  rewrite Hp. reflexivity.
Qed.

End CrewFailure.

(** C4, as stated, fails: on an email of the fallback path whose crew
    call times out, [EmailTriageAgent.triage_email] returns nothing; the
    exception reaches its caller. *)
Lemma triage_email_crew_exception_counterexample :
  Spec.takes_fallback (failing (mk_exn "TimeoutError" "Request timed out."))
    (Some "Quick question about my dog's insurance") (Some "")
    (Some "janedoe@gmail.com")
  /\ email_triage_agent.triage_email
       (failing (mk_exn "TimeoutError" "Request timed out."))
       (Some "Quick question about my dog's insurance") (Some "")
       (Some "janedoe@gmail.com")
     = Raise (mk_exn "TimeoutError" "Request timed out.")
  /\ ~ exists reasoning,
         email_triage_agent.triage_email
           (failing (mk_exn "TimeoutError" "Request timed out."))
           (Some "Quick question about my dog's insurance") (Some "")
           (Some "janedoe@gmail.com")
         = Return ("notify", reasoning).
Proof.
  split; [reflexivity|]. split; [reflexivity|].
  intros [reasoning H]. discriminate H.
Qed.

(** The same email through the wrapper of gmail_sync. *)
Lemma crew_exception_caught_by_wrapper_witness :
  email_triage_agent.triage_email
    (failing (mk_exn "TimeoutError" "Request timed out."))
    (Some "Quick question about my dog's insurance") (Some "")
    (Some "janedoe@gmail.com")
  = Raise (mk_exn "TimeoutError" "Request timed out.")
  /\ fst (gmail_sync.triage_email
            (mk_flow (mk_state (Some "") (Some "") (Some "") "notify" "")
                     (failing (mk_exn "TimeoutError" "Request timed out.")))
            (Some "Quick question about my dog's insurance") (Some "")
            (Some "janedoe@gmail.com"))
     = Return ("notify", "Triage failed with error: Request timed out.").
Proof.
  apply (crew_exception_caught_by_wrapper
           (mk_flow (mk_state (Some "") (Some "") (Some "") "notify" "")
                    (failing (mk_exn "TimeoutError" "Request timed out.")))
           "Quick question about my dog's insurance" "" "janedoe@gmail.com"
           (mk_exn "TimeoutError" "Request timed out.")).
  - reflexivity.
  - reflexivity.
Defined.

(** * Further properties of the triage code *)

(** ** The safeguards on arbitrary arguments *)

Section SafeguardsAnyArgument.

Variables subject sender : pyarg.

Lemma safeguard_message_pass (cr : string * string) :
  fst cr <> "ignore" -> safeguard_message cr subject sender = Return cr.
Proof.
  destruct cr as [c r]. cbn [fst]. intros H. apply String.eqb_neq in H.
  unfold safeguard_message. now rewrite H.
Qed.

Lemma safeguard_legal_pass (cr : string * string) :
  fst cr <> "ignore" -> safeguard_legal cr subject = Return cr.
Proof.
  destruct cr as [c r]. cbn [fst]. intros H. apply String.eqb_neq in H.
  unfold safeguard_legal. now rewrite H.
Qed.

Lemma safeguard_bill_pass (cr : string * string) :
  fst cr <> "ignore" -> safeguard_bill cr subject = Return cr.
Proof.
  destruct cr as [c r]. cbn [fst]. intros H. apply String.eqb_neq in H.
  unfold safeguard_bill. now rewrite H.
Qed.

(** A verdict other than "ignore" goes through the three safeguards
    untouched, and no [lower()] is called on subject or sender. *)
Lemma apply_safeguards_pass (cr : string * string) :
  fst cr <> "ignore" -> apply_safeguards cr subject sender = Return cr.
Proof.
  intros H. unfold apply_safeguards.
  rewrite safeguard_message_pass by exact H. cbn [bind].
  rewrite safeguard_legal_pass by exact H. cbn [bind].
  now apply safeguard_bill_pass.
Qed.

Ltac safeguard_cases :=
  match goal with
  | |- bind ?m _ = _ -> _ =>
      destruct m as [[|]|e]; cbn [bind]; intros H; inversion H; subst; auto
  end.

Lemma safeguard_message_result (cr cr' : string * string) :
  safeguard_message cr subject sender = Return cr' ->
  cr' = cr \/ fst cr' = "notify".
Proof. destruct cr as [c r]. unfold safeguard_message. safeguard_cases. Qed.

Lemma safeguard_legal_result (cr cr' : string * string) :
  safeguard_legal cr subject = Return cr' ->
  cr' = cr \/ fst cr' = "respond".
Proof. destruct cr as [c r]. unfold safeguard_legal. safeguard_cases. Qed.

Lemma safeguard_bill_result (cr cr' : string * string) :
  safeguard_bill cr subject = Return cr' ->
  cr' = cr \/ fst cr' = "notify".
Proof. destruct cr as [c r]. unfold safeguard_bill. safeguard_cases. Qed.

(** Whatever the arguments, a result of the safeguards has the category
    it was given, or "notify", or "respond". *)
Lemma apply_safeguards_category (cr cr' : string * string) :
  apply_safeguards cr subject sender = Return cr' ->
  Spec.is_category (fst cr) -> Spec.is_category (fst cr').
Proof.
  unfold apply_safeguards, Spec.is_category.
  destruct (safeguard_message cr subject sender) as [cr1|] eqn:H1; [|discriminate].
  cbn [bind].
  destruct (safeguard_legal cr1 subject) as [cr2|] eqn:H2; [|discriminate].
  cbn [bind]. intros H3 Hc.
  apply safeguard_message_result in H1.
  apply safeguard_legal_result in H2.
  apply safeguard_bill_result in H3.
  destruct H3 as [-> | ->]; [|tauto].
  destruct H2 as [-> | ->]; [|tauto].
  destruct H1 as [-> | ->]; tauto.
Qed.

End SafeguardsAnyArgument.

(** ** The orchestrator on arbitrary arguments *)

Section OrchestratorAnyArgument.

Variable self : EmailTriageAgent.

(** Whenever [triage_email] returns, for any subject, body and sender
    ([None] included) and any crew, the category is one of the three. *)
Lemma triage_email_category (subject body sender : pyarg) (c r : string) :
  triage_email self subject body sender = Return (c, r) -> Spec.is_category c.
Proof.
  destruct (triage_email_paths self subject body sender)
    as [(c' & confidence & reason & _ & Hc & ->) | (reason & _ & ->)].
  - intros H. injection H as <- _. exact Hc.
  - unfold llm_triage.
    destruct (crew_kickoff self (email_content subject body sender)) as [raw|];
      [|discriminate].
    cbn [bind]. intros H.
    apply apply_safeguards_category in H; [exact H | apply parse_result_category].
Qed.

(** X5: when the Indicator Matcher reaches a verdict, [triage_email]
    does not consult the crew: the result is the same for every agent,
    whatever its crew would answer or raise. *)
Theorem triage_fast_path_skips_crew
    (other : EmailTriageAgent) (subject body sender : pyarg)
    (c : string) (confidence : Q) (reason : string) :
  _analyze_email_indicators self subject body sender
  = (Some c, confidence, reason) ->
  triage_email self subject body sender
  = Return (c, "Automatic categorization: " ++ reason)
  /\ triage_email other subject body sender
     = triage_email self subject body sender.
Proof.
  intros Ha.
  assert (Hfast : forall agent,
             triage_email agent subject body sender
             = Return (c, "Automatic categorization: " ++ reason)).
  { intros agent.
    destruct (triage_email_paths agent subject body sender)
      as [(c' & confidence' & reason' & Ha' & _ & ->) | (reason' & Ha' & _)].
    - change (_analyze_email_indicators agent subject body sender)
        with (_analyze_email_indicators self subject body sender) in Ha'.
      rewrite Ha in Ha'. now injection Ha' as <- _ <-.
    - change (_analyze_email_indicators agent subject body sender)
        with (_analyze_email_indicators self subject body sender) in Ha'.
      rewrite Ha in Ha'. discriminate. }
  now rewrite !Hfast.
Qed.

(** X6: an email whose sender contains one of the team domains (letter
    case ignored) is never ignored: [triage_email] returns "notify" or
    "respond" for every subject and body, without consulting the crew. *)
Theorem triage_team_sender_never_ignored
    (subject body : pyarg) (sender domain : string) :
  In domain team_domains ->
  Spec.occurs_nocase domain sender ->
  exists category reasoning,
    triage_email self subject body (Some sender) = Return (category, reasoning)
    /\ (category = "notify" \/ category = "respond").
Proof.
  intros Hin Hocc.
  assert (Hlow : lower domain = domain).
  { unfold team_domains in Hin. cbn [In] in Hin.
    destruct Hin as [<- | [<- | [<- | []]]]; reflexivity. }
  apply occurs_nocase_lower in Hocc; [|exact Hlow].
  assert (Hteam : any_in team_domains (lower sender) = true).
  { unfold any_in. apply existsb_exists. now exists domain. }
  assert (Ha : exists c reason,
             _analyze_email_indicators self subject body (Some sender)
             = (Some c, 0.95%Q, reason) /\ (c = "notify" \/ c = "respond")).
  { unfold _analyze_email_indicators. rewrite (lower_or_empty_Some sender).
    destruct (any_in message_terms (lower_or_empty subject)
              && contains "ringcentral" (lower sender)); [eauto 6|].
    destruct ((contains "bill" (lower_or_empty subject)
               && contains "due" (lower_or_empty subject))
              || contains "payment required" (lower_or_empty subject));
      [eauto 6|].
    destruct (find _ legal_indicators); [eauto 6|].
    rewrite Hteam. eauto 6. }
  destruct Ha as (c & reason & Ha & Hc).
  exists c, ("Automatic categorization: " ++ reason). split; [|exact Hc].
  now apply triage_fast.
Qed.

(** X7: missing fields are tolerated as long as the crew does not answer
    "ignore": on the fallback path, for any subject, body and sender
    ([None] included), a parsed verdict "notify" or "respond" is returned
    as it is. *)
Theorem triage_returns_non_ignore_verdict
    (subject body sender : pyarg) (raw : string) :
  Spec.takes_fallback self subject body sender ->
  crew_kickoff self (email_content subject body sender) = Return raw ->
  fst (parse_result raw) <> "ignore" ->
  triage_email self subject body sender = Return (parse_result raw).
Proof.
  unfold Spec.takes_fallback, triage_email, llm_triage.
  destruct (_analyze_email_indicators self subject body sender)
    as [[pre_category confidence] pre_reasoning].
  intros Hf Hraw Hne. rewrite Hf, Hraw. cbn [bind].
  rewrite apply_safeguards_pass by exact Hne. now destruct pre_category.
Qed.

(** X8: with a subject and a sender that are strings, [triage_email]
    raises nothing of its own: an exception that leaves it is the one
    the crew raised on this email. *)
Theorem triage_raises_only_crew_exceptions
    (subject sender : string) (body : pyarg) (e : exn) :
  triage_email self (Some subject) body (Some sender) = Raise e ->
  crew_kickoff self (email_content (Some subject) body (Some sender)) = Raise e.
Proof.
  destruct (triage_email_paths self (Some subject) body (Some sender))
    as [(c & confidence & reason & _ & _ & ->) | (reason & _ & ->)];
    [discriminate|].
  unfold llm_triage.
  destruct (crew_kickoff self (email_content (Some subject) body (Some sender)))
    as [raw|e']; cbn [bind].
  - rewrite apply_safeguards_Some. discriminate.
  - intros H. now injection H as ->.
Qed.

Lemma apply_rule_ignore (rule : Spec.rule) (cr : string * string)
    (subject sender r : string) :
  In rule Spec.rules ->
  Spec.apply_rule subject sender cr rule = ("ignore", r) ->
  cr = ("ignore", r) /\ Spec.holds rule subject sender = false.
Proof.
  intros Hin. unfold Spec.apply_rule. destruct cr as [c r0]. cbn [fst snd].
  destruct (c =? "ignore") eqn:Hc;
    destruct (Spec.holds rule subject sender); cbn [andb]; intros H.
  - exfalso. injection H as Hf _. unfold Spec.rules in Hin. cbn [In] in Hin.
    destruct Hin as [<- | [<- | [<- | []]]]; discriminate Hf.
  - now split.
  - injection H as -> _. discriminate Hc.
  - injection H as -> _. discriminate Hc.
Qed.

(** The verdict "ignore" leaves the policy only when it entered it and
    no rule holds. *)
Lemma safeguard_policy_ignore (cr : string * string) (subject sender r : string) :
  Spec.safeguard_policy cr subject sender = ("ignore", r) ->
  cr = ("ignore", r)
  /\ forall rule, In rule Spec.rules -> Spec.holds rule subject sender = false.
Proof.
  unfold Spec.safeguard_policy, Spec.rules. cbn [fold_left]. intros H.
  apply apply_rule_ignore in H; [|unfold Spec.rules; cbn [In]; tauto].
  destruct H as [H H3].
  apply apply_rule_ignore in H; [|unfold Spec.rules; cbn [In]; tauto].
  destruct H as [H H2].
  apply apply_rule_ignore in H; [|unfold Spec.rules; cbn [In]; tauto].
  destruct H as [H H1].
  split; [exact H|].
  intros rule Hr. cbn [In] in Hr.
  destruct Hr as [<- | [<- | [<- | []]]]; assumption.
Qed.

(** X4: [triage_email] returns "ignore" only for an email on which none
    of the three safeguard conditions holds: not a voice, text or fax
    message from RingCentral, no legal term in the subject, and not both
    "bill" and "due" in the subject. *)
Theorem triage_ignore_implies_no_safeguard_condition
    (subject sender : string) (body : pyarg) (reasoning : string) :
  triage_email self (Some subject) body (Some sender)
  = Return ("ignore", reasoning) ->
  any_in message_terms (lower subject) && contains "ringcentral" (lower sender)
  = false
  /\ any_in legal_terms (lower subject) = false
  /\ contains "bill" (lower subject) && contains "due" (lower subject) = false.
Proof.
  intros H.
  assert (Hrules : forall rule, In rule Spec.rules ->
                                Spec.holds rule subject sender = false).
  { destruct (triage_email_paths self (Some subject) body (Some sender))
      as [(c & confidence & reason & Ha & _ & Ht) | (reason & _ & Ht)];
      rewrite Ht in H.
    - injection H as -> _. exact (analyze_ignore_no_rule _ _ _ _ _ _ Ha).
    - unfold llm_triage in H.
      destruct (crew_kickoff self (email_content (Some subject) body (Some sender)))
        as [raw|]; [|discriminate].
      cbn [bind] in H. rewrite apply_safeguards_Some in H. injection H as H.
      now apply safeguard_policy_ignore in H. }
  unfold Spec.rules in Hrules. cbn [In] in Hrules.
  split; [|split].
  - apply (Hrules Spec.rule_message). tauto.
  - apply (Hrules Spec.rule_legal). tauto.
  - apply (Hrules Spec.rule_bill). tauto.
Qed.

End OrchestratorAnyArgument.

(** Lunch with a friend, answered "ignore" by the crew. *)
Lemma triage_ignore_implies_no_safeguard_condition_witness :
  any_in message_terms (lower "Lunch on Friday?")
  && contains "ringcentral" (lower "janedoe@gmail.com") = false
  /\ any_in legal_terms (lower "Lunch on Friday?") = false
  /\ contains "bill" (lower "Lunch on Friday?")
     && contains "due" (lower "Lunch on Friday?") = false.
Proof.
  apply (triage_ignore_implies_no_safeguard_condition (answering "ignore")
           "Lunch on Friday?" "janedoe@gmail.com" None "No reasoning provided").
  reflexivity.
Defined.

(** A court notice: the same result from a crew that says "ignore" and
    from one whose call fails. *)
Lemma triage_fast_path_skips_crew_witness :
  triage_email (answering "ignore") (Some "Court date moved") None None
  = Return ("respond", "Automatic categorization: Legal term in subject: 'court'")
  /\ triage_email (failing (mk_exn "TimeoutError" "Request timed out."))
       (Some "Court date moved") None None
     = triage_email (answering "ignore") (Some "Court date moved") None None.
Proof.
  apply (triage_fast_path_skips_crew (answering "ignore")
           (failing (mk_exn "TimeoutError" "Request timed out."))
           (Some "Court date moved") None None
           "respond" 0.95%Q "Legal term in subject: 'court'").
  reflexivity.
Defined.

(** A team member writing with no subject and no body. *)
Lemma triage_team_sender_never_ignored_witness :
  exists category reasoning,
    triage_email (answering "ignore") None None
      (Some "Faye <Faye@WhaleyLawFirm.com>")
    = Return (category, reasoning)
    /\ (category = "notify" \/ category = "respond").
Proof.
  apply (triage_team_sender_never_ignored (answering "ignore") None None
           "Faye <Faye@WhaleyLawFirm.com>" "whaleylawfirm.com").
  - unfold team_domains. cbn [In]. tauto.
  - exists "Faye <Faye@", "WhaleyLawFirm.com", ">". split; reflexivity.
Defined.

(** No subject, no body, no sender, and a crew that answers "respond". *)
Lemma triage_returns_non_ignore_verdict_witness :
  triage_email (answering ("Respond" ++ nl ++ "A client asks a question."))
    None None None
  = Return ("respond", "A client asks a question.").
Proof.
  apply (triage_returns_non_ignore_verdict
           (answering ("Respond" ++ nl ++ "A client asks a question."))
           None None None ("Respond" ++ nl ++ "A client asks a question.")).
  - reflexivity.
  - reflexivity.
  - cbn. discriminate.
Defined.

(** A crew call that times out on an email of the fallback path. *)
Lemma triage_raises_only_crew_exceptions_witness :
  crew_kickoff (failing (mk_exn "TimeoutError" "Request timed out."))
    (email_content (Some "Lunch on Friday?") None (Some "janedoe@gmail.com"))
  = Raise (mk_exn "TimeoutError" "Request timed out.").
Proof.
  apply (triage_raises_only_crew_exceptions
           (failing (mk_exn "TimeoutError" "Request timed out."))
           "Lunch on Friday?" "janedoe@gmail.com" None
           (mk_exn "TimeoutError" "Request timed out.")).
  reflexivity.
Defined.

(** ** The wrapper of gmail_sync *)

Section Wrapper.

Variable email_triage_flow : EmailTriageFlow.
Variables subject sender : pyarg.
Variable body : string.

Lemma is_category_valid (c : string) :
  Spec.is_category c -> gmail_sync.is_valid c = true.
Proof. intros [-> | [-> | ->]]; reflexivity. Qed.

(** The wrapper in one equation: the state after the call and the pair
    returned, by the outcome of the agent. *)
Lemma wrapper_unfold :
  gmail_sync.triage_email email_triage_flow subject (Some body) sender
  = match triage_email (triage_agent email_triage_flow)
            subject (Some body) sender with
    | Return (c, r) =>
        (Return (c, r),
         mk_flow (mk_state subject (Some body) sender c r)
                 (triage_agent email_triage_flow))
    | Raise e =>
        (Return ("notify", "Triage failed with error: " ++ str_exn e),
         mk_flow (mk_state subject (Some body) sender
                    (triage_category (state email_triage_flow))
                    (triage_reasoning (state email_triage_flow)))
                 (triage_agent email_triage_flow))
    end.
Proof.
  unfold gmail_sync.triage_email, kickoff, process_email.
  cbn [state triage_agent email_subject email_body email_sender].
  destruct (triage_email (triage_agent email_triage_flow)
              subject (Some body) sender) as [[c r]|e] eqn:Ht; [|reflexivity].
  cbn [state triage_reasoning].
  now rewrite (is_category_valid c (triage_email_category _ _ _ _ _ _ Ht)).
Qed.

(** X1: given a body that is a string, the wrapper never raises and
    always returns one of the three categories, for every subject and
    sender ([None] included) and whatever the crew answers or raises. *)
Theorem wrapper_returns_valid_category :
  exists category reasoning,
    fst (gmail_sync.triage_email email_triage_flow subject (Some body) sender)
    = Return (category, reasoning)
    /\ Spec.is_category category.
Proof.
  rewrite wrapper_unfold.
  destruct (triage_email (triage_agent email_triage_flow)
              subject (Some body) sender) as [[c r]|e] eqn:Ht; cbn [fst].
  - exists c, r. split; [reflexivity|].
    exact (triage_email_category _ _ _ _ _ _ Ht).
  - eexists _, _. split; [reflexivity|]. unfold Spec.is_category. tauto.
Qed.

(** X2: the wrapper returns the verdict of the agent unchanged (its
    check for an invalid category never fires), and turns an exception
    of the agent into "notify" with the text of the exception. *)
Theorem wrapper_returns_agent_verdict :
  fst (gmail_sync.triage_email email_triage_flow subject (Some body) sender)
  = match triage_email (triage_agent email_triage_flow)
            subject (Some body) sender with
    | Return verdict => Return verdict
    | Raise e => Return ("notify", "Triage failed with error: " ++ str_exn e)
    end.
Proof.
  rewrite wrapper_unfold.
  now destruct (triage_email (triage_agent email_triage_flow)
                  subject (Some body) sender) as [[c r]|e].
Qed.

(** X3: after a call the flow state holds the three inputs of this
    email; it holds the verdict returned when the agent returned one,
    and still the verdict of the previous call when the agent raised. *)
Theorem wrapper_state_after_call :
  let st := state (snd (gmail_sync.triage_email email_triage_flow
                          subject (Some body) sender)) in
  email_subject st = subject
  /\ email_body st = Some body
  /\ email_sender st = sender
  /\ match triage_email (triage_agent email_triage_flow)
             subject (Some body) sender with
     | Return (c, r) => triage_category st = c /\ triage_reasoning st = r
     | Raise _ =>
         triage_category st = triage_category (state email_triage_flow)
         /\ triage_reasoning st = triage_reasoning (state email_triage_flow)
     end.
Proof.
  rewrite wrapper_unfold.
  destruct (triage_email (triage_agent email_triage_flow)
              subject (Some body) sender) as [[c r]|e]; cbn; tauto.
Qed.

End Wrapper.

(** ** Facts about trimming *)

Section TrimFacts.

Lemma append_empty_r (s : string) : s ++ "" = s.
Proof. induction s as [|c s IH]; cbn; [reflexivity | now rewrite IH]. Qed.

Lemma append_assoc (a b c : string) : (a ++ b) ++ c = a ++ b ++ c.
Proof. induction a as [|x a IH]; cbn; [reflexivity | now rewrite IH]. Qed.

Lemma append_nonempty_r (a b : string) : b <> "" -> (a ++ b =? "") = false.
Proof.
  intros Hb. apply String.eqb_neq. destruct a; cbn; [exact Hb | discriminate].
Qed.

Lemma lstrip_idem (s : string) : lstrip (lstrip s) = lstrip s.
Proof.
  induction s as [|c s IH]; cbn; [reflexivity|].
  destruct (isspace c) eqn:Hc; [exact IH | cbn; now rewrite Hc].
Qed.

Lemma rstrip_idem (s : string) : rstrip (rstrip s) = rstrip s.
Proof.
  induction s as [|c s IH]; cbn; [reflexivity|].
  destruct (isspace c && (rstrip s =? "")) eqn:Hc; [reflexivity|].
  cbn. now rewrite IH, Hc.
Qed.

Lemma lstrip_rstrip (s : string) : lstrip (rstrip s) = rstrip (lstrip s).
Proof.
  induction s as [|c s IH]; cbn; [reflexivity|].
  destruct (isspace c) eqn:Hc; cbn [andb].
  - destruct (String.eqb_spec (rstrip s) "") as [He|Hne].
    + rewrite <- IH, He. reflexivity.
    + cbn. now rewrite Hc.
  - cbn. now rewrite Hc.
Qed.

Lemma strip_idem (s : string) : strip (strip s) = strip s.
Proof.
  unfold strip. now rewrite lstrip_rstrip, rstrip_idem, lstrip_idem.
Qed.

Lemma lstrip_empty_rstrip (s : string) : lstrip s = "" -> rstrip s = "".
Proof.
  induction s as [|c s IH]; cbn; [reflexivity|].
  destruct (isspace c); [|discriminate].
  intros H. now rewrite (IH H).
Qed.

Lemma rstrip_empty_strip (s : string) : (rstrip s =? "") = (strip s =? "").
Proof.
  unfold strip. rewrite <- lstrip_rstrip.
  destruct (String.eqb_spec (rstrip s) "") as [He|Hne].
  - now rewrite He.
  - symmetry. apply String.eqb_neq. intros H.
    apply lstrip_empty_rstrip in H. rewrite rstrip_idem in H. contradiction.
Qed.

Lemma rstrip_app (a b : string) :
  rstrip (a ++ b) = if rstrip b =? "" then rstrip a else a ++ rstrip b.
Proof.
  induction a as [|c a IH]; cbn.
  - now destruct (String.eqb_spec (rstrip b) "").
  - rewrite IH. destruct (String.eqb_spec (rstrip b) "") as [He|Hne].
    + reflexivity.
    + rewrite (append_nonempty_r a _ Hne). now rewrite andb_false_r.
Qed.

Lemma no_space_lower (s : string) : Text.no_space (lower s) = Text.no_space s.
Proof.
  induction s as [|c s IH]; cbn; [reflexivity|].
  now rewrite isspace_lower_char, IH.
Qed.

Lemma lstrip_word_app (w x : string) :
  Text.is_word w = true -> lstrip (w ++ x) = w ++ x.
Proof.
  destruct w as [|c w]; [discriminate|]. unfold Text.is_word. cbn.
  destruct (isspace c); [discriminate | reflexivity].
Qed.

Lemma rstrip_no_space (w : string) : Text.no_space w = true -> rstrip w = w.
Proof.
  induction w as [|c w IH]; cbn; [reflexivity|].
  destruct (isspace c); [discriminate|]. cbn. intros H. now rewrite (IH H).
Qed.

Lemma strip_word (w : string) : Text.is_word w = true -> strip w = w.
Proof.
  intros H. unfold strip.
  rewrite <- (append_empty_r w) at 1. rewrite (lstrip_word_app w "" H).
  rewrite append_empty_r. apply rstrip_no_space.
  unfold Text.is_word in H. apply andb_true_iff in H. tauto.
Qed.

Lemma break_nl_word (w x : string) :
  Text.no_space w = true -> break_nl (w ++ nl ++ x) = (w, Some x).
Proof.
  induction w as [|c w IH]; cbn [append break_nl Text.no_space].
  - reflexivity.
  - destruct (Ascii.eqb_spec c "010") as [-> | Hc]; [discriminate|].
    intros H. apply andb_true_iff in H. destruct H as [_ H].
    now rewrite (IH H).
Qed.

Lemma break_nl_no_nl (w : string) :
  Text.no_space w = true -> break_nl w = (w, None).
Proof.
  induction w as [|c w IH]; cbn.
  - reflexivity.
  - destruct (Ascii.eqb_spec c "010") as [-> | Hc]; [discriminate|].
    intros H. apply andb_true_iff in H. destruct H as [_ H].
    now rewrite (IH H).
Qed.

Lemma category_is_word (head : string) :
  Spec.is_category (lower head) ->
  Text.is_word head = true /\ Text.is_word (lower head) = true.
Proof.
  intros Hc.
  assert (Hw : Text.is_word (lower head) = true)
    by (destruct Hc as [-> | [-> | ->]]; reflexivity).
  split; [|exact Hw].
  unfold Text.is_word in *. rewrite no_space_lower, lower_empty in Hw. exact Hw.
Qed.

End TrimFacts.

(** ** The answer parser on well-formed answers *)

Section ParserFormat.

(** X9: an answer in the expected format, a category in any letter case
    on the first line and the reasoning after it, is parsed to that
    category in lower case and to the trimmed reasoning; a reasoning
    that is empty or blank is replaced by "No reasoning provided". *)
Theorem parse_result_expected_format (head reasoning : string) :
  Spec.is_category (lower head) ->
  parse_result (head ++ nl ++ reasoning)
  = (lower head,
     if strip reasoning =? "" then "No reasoning provided" else strip reasoning).
Proof.
  intros Hc. destruct (category_is_word head Hc) as [Hw Hwl].
  assert (Hns : Text.no_space head = true)
    by (unfold Text.is_word in Hw; apply andb_true_iff in Hw; tauto).
  assert (Hstrip : strip (head ++ nl ++ reasoning)
                   = if rstrip reasoning =? "" then head
                     else head ++ nl ++ rstrip reasoning).
  { unfold strip. rewrite (lstrip_word_app head _ Hw), rstrip_app.
    rewrite (rstrip_no_space head Hns).
    change (rstrip (nl ++ reasoning))
      with (if rstrip reasoning =? "" then "" else nl ++ rstrip reasoning).
    now destruct (rstrip reasoning =? ""). }
  assert (Hcat : forall rest r : string,
             (let category_text := strip (lower head) in
              if category_text =? "ignore" then ("ignore", r)
              else if category_text =? "notify" then ("notify", r)
              else if category_text =? "respond" then ("respond", r)
              else ("notify", rest)) = (lower head, r)).
  { intros rest r. cbn zeta. rewrite (strip_word _ Hwl).
    destruct Hc as [-> | [-> | ->]]; reflexivity. }
  unfold parse_result. rewrite Hstrip, <- rstrip_empty_strip.
  destruct (String.eqb_spec (rstrip reasoning) "") as [He|Hne].
  - unfold split1. rewrite (break_nl_no_nl head Hns). apply Hcat.
  - unfold split1. rewrite (break_nl_word head _ Hns).
    replace (strip (rstrip reasoning)) with (strip reasoning); [apply Hcat|].
    unfold strip. now rewrite lstrip_rstrip, rstrip_idem.
Qed.

End ParserFormat.

(** An answer in capitals with a reasoning that needs trimming. *)
Lemma parse_result_expected_format_witness :
  parse_result ("IGNORE" ++ nl ++ "  A newsletter.  ")
  = ("ignore", "A newsletter.").
Proof.
  apply (parse_result_expected_format "IGNORE" "  A newsletter.  ").
  unfold Spec.is_category. left. reflexivity.
Defined.

(** ** Facts about searching and slicing *)

Section SliceFacts.

Lemma length_app (a b : string) :
  String.length (a ++ b) = String.length a + String.length b.
Proof. induction a as [|c a IH]; cbn; [reflexivity | now rewrite IH]. Qed.

Lemma no_char_app (c : ascii) (a b : string) :
  Text.no_char c (a ++ b) = Text.no_char c a && Text.no_char c b.
Proof.
  induction a as [|x a IH]; cbn; [reflexivity|].
  now rewrite IH, andb_assoc.
Qed.

Lemma prefix_empty (s : string) : prefix "" s = true.
Proof. now destruct s. Qed.

(** [c in s] for a one-character [c]. *)
Lemma contains_char (c : ascii) (s : string) :
  contains (String c "") s = negb (Text.no_char c s).
Proof.
  induction s as [|x s IH]; rewrite contains_unfold; cbn [prefix Text.no_char].
  - reflexivity.
  - rewrite IH, prefix_empty, negb_andb, negb_involutive.
    destruct (ascii_dec c x) as [-> | Hne].
    + now rewrite Ascii.eqb_refl.
    + destruct (Ascii.eqb_spec x c) as [-> | _]; [contradiction | reflexivity].
Qed.

Lemma find_char_app (c : ascii) (pre x : string) :
  Text.no_char c pre = true ->
  find_char c (pre ++ String c x) = Z.of_nat (String.length pre).
Proof.
  induction pre as [|y pre IH]; cbn [append find_char Text.no_char String.length].
  - now rewrite Ascii.eqb_refl.
  - intros H. apply andb_true_iff in H. destruct H as [Hy H].
    apply negb_true_iff in Hy. rewrite Hy, (IH H).
    destruct (Z.ltb_spec (Z.of_nat (String.length pre)) 0); lia.
Qed.

Lemma find_char_before (c : ascii) (pre x : string) :
  Text.no_char c pre = false ->
  (0 <= find_char c (pre ++ x) < Z.of_nat (String.length pre))%Z.
Proof.
  induction pre as [|y pre IH]; cbn [append find_char Text.no_char String.length].
  - discriminate.
  - destruct (Ascii.eqb y c); cbn [negb andb]; [lia|].
    intros H. specialize (IH H).
    destruct (Z.ltb_spec (find_char c (pre ++ x)) 0); lia.
Qed.

Lemma substring_zero_len (n : nat) (s : string) : substring n 0 s = "".
Proof.
  revert s; induction n as [|n IH]; intros [|c s]; cbn; auto.
Qed.

Lemma substring_prefix (m q : string) : substring 0 (String.length m) (m ++ q) = m.
Proof.
  induction m as [|c m IH]; cbn; [now destruct q | now rewrite IH].
Qed.

Lemma substring_mid (p m q : string) :
  substring (String.length p) (String.length m) (p ++ m ++ q) = m.
Proof.
  induction p as [|c p IH]; cbn [append String.length].
  - apply substring_prefix.
  - cbn. exact IH.
Qed.

Lemma slice_mid (p m q : string) :
  slice (p ++ m ++ q) (Z.of_nat (String.length p))
        (Z.of_nat (String.length p + String.length m)) = m.
Proof.
  unfold slice, clamp. rewrite !length_app.
  destruct (Z.ltb_spec (Z.of_nat (String.length p)) 0); [lia|].
  destruct (Z.ltb_spec (Z.of_nat (String.length p + String.length m)) 0); [lia|].
  rewrite !Z.min_l by lia.
  replace (Z.to_nat (Z.of_nat (String.length p + String.length m)
                     - Z.of_nat (String.length p)))
    with (String.length m) by lia.
  replace (Z.to_nat (Z.of_nat (String.length p))) with (String.length p) by lia.
  apply substring_mid.
Qed.

Lemma slice_backwards (s : string) (a b : Z) :
  (0 <= b <= a)%Z -> slice s a b = "".
Proof.
  intros H. unfold slice, clamp.
  destruct (Z.ltb_spec a 0); [lia|]. destruct (Z.ltb_spec b 0); [lia|].
  replace (Z.to_nat (Z.min b (Z.of_nat (String.length s))
                     - Z.min a (Z.of_nat (String.length s)))) with 0 by lia.
  apply substring_zero_len.
Qed.

End SliceFacts.

(** ** Addresses (gmail_sync.py) *)

Section Addresses.
Import gmail_store.

Lemma clean_email_address_strip (addr : pyarg) :
  strip (clean_email_address addr) = clean_email_address addr.
Proof.
  unfold clean_email_address. destruct addr as [a|]; [|reflexivity].
  destruct (negb (truthy (Some a))); [reflexivity|].
  destruct (contains "<" a && contains ">" a); apply strip_idem.
Qed.

(** X10: [clean_email_address] returns a text without leading or
    trailing whitespace, for every argument ([None] and the empty string
    give the empty string). *)
Theorem clean_email_address_trimmed (addr : pyarg) :
  Text.trimmed (clean_email_address addr)
  /\ clean_email_address None = ""
  /\ clean_email_address (Some "") = "".
Proof.
  split; [apply clean_email_address_strip | split; reflexivity].
Qed.

(** X11: on the form [name <address> rest], where [<] and [>] do not
    occur in the name and [>] does not occur in the address, the result
    is the address, trimmed. *)
Theorem clean_email_address_bracketed (name address rest : string) :
  Text.no_char "<" name = true ->
  Text.no_char ">" name = true ->
  Text.no_char ">" address = true ->
  clean_email_address (Some (name ++ "<" ++ address ++ ">" ++ rest))
  = strip address.
Proof.
  intros Hlt Hgt Hgta. unfold clean_email_address.
  assert (Hne : truthy (Some (name ++ "<" ++ address ++ ">" ++ rest)) = true).
  { cbn [truthy]. rewrite append_nonempty_r; [reflexivity | discriminate]. }
  rewrite Hne. cbn [negb].
  assert (H1 : contains "<" (name ++ "<" ++ address ++ ">" ++ rest) = true).
  { apply contains_iff. now exists name, (address ++ ">" ++ rest). }
  assert (H2 : contains ">" (name ++ "<" ++ address ++ ">" ++ rest) = true).
  { apply contains_iff. exists (name ++ "<" ++ address), rest.
    now rewrite !append_assoc. }
  rewrite H1, H2. cbn [andb]. f_equal.
  assert (Hf1 : find_char "<" (name ++ "<" ++ address ++ ">" ++ rest)
                = Z.of_nat (String.length name))
    by exact (find_char_app "<" name (address ++ ">" ++ rest) Hlt).
  assert (Hf2 : find_char ">" (name ++ "<" ++ address ++ ">" ++ rest)
                = Z.of_nat (String.length (name ++ "<" ++ address))).
  { replace (name ++ "<" ++ address ++ ">" ++ rest)
      with ((name ++ "<" ++ address) ++ String ">" rest)
      by now rewrite !append_assoc.
    apply find_char_app. rewrite !no_char_app, Hgt, Hgta. reflexivity. }
  rewrite Hf1, Hf2.
  replace (name ++ "<" ++ address ++ ">" ++ rest)
    with ((name ++ "<") ++ address ++ ">" ++ rest)
    by now rewrite !append_assoc.
  replace (Z.of_nat (String.length name) + 1)%Z
    with (Z.of_nat (String.length (name ++ "<")))
    by (rewrite length_app; cbn; lia).
  replace (String.length (name ++ "<" ++ address))
    with (String.length (name ++ "<") + String.length address)
    by (rewrite !length_app; cbn; lia).
  apply slice_mid.
Qed.

(** X12: when a [>] comes before the first [<], the slice between them
    is empty and the address is lost: the result is the empty string. *)
Theorem clean_email_address_reversed_brackets (pre rest : string) :
  Text.no_char "<" pre = true ->
  Text.no_char ">" pre = false ->
  clean_email_address (Some (pre ++ "<" ++ rest)) = "".
Proof.
  intros Hlt Hgt. unfold clean_email_address.
  assert (Hne : truthy (Some (pre ++ "<" ++ rest)) = true).
  { cbn [truthy]. rewrite append_nonempty_r; [reflexivity | discriminate]. }
  rewrite Hne. cbn [negb].
  assert (H1 : contains "<" (pre ++ "<" ++ rest) = true).
  { apply contains_iff. now exists pre, rest. }
  assert (H2 : contains ">" (pre ++ "<" ++ rest) = true).
  { rewrite contains_char, no_char_app, Hgt. reflexivity. }
  rewrite H1, H2. cbn [andb].
  pose proof (find_char_before ">" pre ("<" ++ rest) Hgt) as Hend.
  assert (Hstart : find_char "<" (pre ++ "<" ++ rest)
                   = Z.of_nat (String.length pre))
    by exact (find_char_app "<" pre rest Hlt).
  rewrite Hstart, slice_backwards by lia. reflexivity.
Qed.

End Addresses.

(** A display name in front of the address, a remark behind it. *)
Lemma clean_email_address_bracketed_witness :
  gmail_store.clean_email_address (Some "Jane Doe < jane@example.com > (work)")
  = "jane@example.com".
Proof.
  exact (clean_email_address_bracketed "Jane Doe " " jane@example.com " " (work)"
           eq_refl eq_refl eq_refl).
Defined.

(** A quoted reply marker in front of the bracketed address. *)
Lemma clean_email_address_reversed_brackets_witness :
  gmail_store.clean_email_address (Some "Re> Jane <jane@example.com>") = "".
Proof.
  exact (clean_email_address_reversed_brackets "Re> Jane " "jane@example.com>"
           eq_refl eq_refl).
Defined.

(** ** Address lists (gmail_sync.py) *)

Section AddressLists.
Import gmail_store.

Lemma split_parts_no_char (c : ascii) (a : string) :
  Text.no_char c a = true -> split_parts c a = (a, []).
Proof.
  induction a as [|x a IH]; cbn; [reflexivity|].
  intros H. apply andb_true_iff in H. destruct H as [Hx H].
  apply negb_true_iff in Hx. now rewrite (IH H), Hx.
Qed.

Lemma split_char_no_char (c : ascii) (a : string) :
  Text.no_char c a = true -> split_char c a = [a].
Proof. intros H. unfold split_char. now rewrite split_parts_no_char. Qed.

Lemma split_char_app (c : ascii) (a x : string) :
  Text.no_char c a = true ->
  split_char c (a ++ String c x) = a :: split_char c x.
Proof.
  unfold split_char.
  induction a as [|y a IH]; cbn [append split_parts Text.no_char].
  - rewrite Ascii.eqb_refl. now destruct (split_parts c x).
  - intros H. apply andb_true_iff in H. destruct H as [Hy H].
    apply negb_true_iff in Hy. specialize (IH H).
    destruct (split_parts c (a ++ String c x)) as [h t].
    rewrite Hy. now injection IH as -> ->.
Qed.

Lemma split_char_pieces (c : ascii) (s : string) :
  Forall (fun piece => Text.no_char c piece = true) (split_char c s).
Proof.
  unfold split_char.
  induction s as [|x s IH]; cbn [split_parts].
  - repeat constructor.
  - destruct (split_parts c s) as [h t].
    destruct (Ascii.eqb x c) eqn:Hx.
    + constructor; [reflexivity | exact IH].
    + inversion IH; subst. constructor; [|assumption].
      cbn. now rewrite Hx.
Qed.

(** X13: every address that [parse_email_addresses] returns is trimmed;
    [None] and the empty string give the empty list. *)
Theorem parse_email_addresses_trimmed (addr_str : pyarg) :
  Forall Text.trimmed (parse_email_addresses addr_str)
  /\ parse_email_addresses None = []
  /\ parse_email_addresses (Some "") = [].
Proof.
  split; [|split; reflexivity].
  unfold parse_email_addresses. destruct addr_str as [s|]; [|constructor].
  destruct (negb (truthy (Some s))); [constructor|].
  apply Forall_forall. intros a Ha. apply in_map_iff in Ha.
  destruct Ha as (piece & <- & _). apply clean_email_address_strip.
Qed.

Lemma plain_piece (pre a : string) :
  pre = "" \/ pre = " " ->
  Text.plain_address a ->
  Text.no_char "," (pre ++ a) = true
  /\ negb (strip (pre ++ a) =? "") = true
  /\ clean_email_address (Some (pre ++ a)) = a.
Proof.
  intros Hpre (Hne & Htrim & Hcomma & Hlt).
  assert (Hstrip : strip (pre ++ a) = a)
    by (destruct Hpre as [-> | ->]; exact Htrim).
  assert (Hnonempty : (pre ++ a =? "") = false)
    by (apply append_nonempty_r; exact Hne).
  split; [|split].
  - destruct Hpre as [-> | ->]; exact Hcomma.
  - rewrite Hstrip. apply negb_true_iff. now apply String.eqb_neq.
  - unfold clean_email_address. cbn [truthy]. rewrite Hnonempty. cbn [negb].
    rewrite contains_char.
    replace (Text.no_char "<" (pre ++ a)) with true
      by (destruct Hpre as [-> | ->]; symmetry; exact Hlt).
    exact Hstrip.
Qed.

Lemma parse_joined_pieces (addrs : list string) (a pre : string) :
  pre = "" \/ pre = " " ->
  Forall Text.plain_address (a :: addrs) ->
  map (fun addr => clean_email_address (Some addr))
      (filter (fun addr => negb (strip addr =? ""))
              (split_char "," (pre ++ join ", " (a :: addrs))))
  = a :: addrs.
Proof.
  revert a pre. induction addrs as [|b addrs IH]; intros a pre Hpre Hall.
  - inversion Hall as [|? ? Ha _]; subst.
    destruct (plain_piece pre a Hpre Ha) as (Hc & Hkeep & Hclean).
    cbn [join String.concat]. rewrite (split_char_no_char _ _ Hc).
    cbn [filter]. rewrite Hkeep. cbn [map]. now rewrite Hclean.
  - inversion Hall as [|? ? Ha Hrest]; subst.
    destruct (plain_piece pre a Hpre Ha) as (Hc & Hkeep & Hclean).
    change (join ", " (a :: b :: addrs))
      with (a ++ ", " ++ join ", " (b :: addrs)).
    replace (pre ++ a ++ ", " ++ join ", " (b :: addrs))
      with ((pre ++ a) ++ String "," (" " ++ join ", " (b :: addrs)))
      by now rewrite append_assoc.
    rewrite (split_char_app _ _ _ Hc). cbn [filter]. rewrite Hkeep. cbn [map].
    rewrite Hclean. f_equal. apply IH; [now right | exact Hrest].
Qed.

(** X14: a list of plain addresses joined with ", " is parsed back to
    the same list. *)
Theorem parse_email_addresses_join (addrs : list string) :
  Forall Text.plain_address addrs ->
  parse_email_addresses (Some (join ", " addrs)) = addrs.
Proof.
  intros Hall. destruct addrs as [|a addrs]; [reflexivity|].
  unfold parse_email_addresses.
  assert (Hne : truthy (Some (join ", " (a :: addrs))) = true).
  { inversion Hall as [|? ? (Ha & _) _]; subst. cbn [truthy].
    apply negb_true_iff, String.eqb_neq.
    destruct a as [|c a]; [contradiction|].
    destruct addrs; cbn; discriminate. }
  rewrite Hne. cbn [negb].
  exact (parse_joined_pieces addrs a "" (or_introl eq_refl) Hall).
Qed.

End AddressLists.

(** Two recipients as a mail client writes them. *)
Lemma parse_email_addresses_join_witness :
  gmail_store.parse_email_addresses (Some "jane@example.com, bob@example.org")
  = ["jane@example.com"; "bob@example.org"].
Proof.
  apply (parse_email_addresses_join ["jane@example.com"; "bob@example.org"]).
  repeat constructor; discriminate.
Defined.

(** ** The instruction texts (email_triage_agent.py) *)

Section Instructions.
Import instructions.

Lemma no_char_lstrip (c : ascii) (s : string) :
  Text.no_char c s = true -> Text.no_char c (lstrip s) = true.
Proof.
  induction s as [|x s IH]; cbn; [reflexivity|].
  intros H. destruct (isspace x); [|exact H].
  apply andb_true_iff in H. now apply IH.
Qed.

Lemma no_char_rstrip (c : ascii) (s : string) :
  Text.no_char c s = true -> Text.no_char c (rstrip s) = true.
Proof.
  induction s as [|x s IH]; cbn; [reflexivity|].
  intros H. apply andb_true_iff in H. destruct H as [Hx H].
  destruct (isspace x && (rstrip s =? "")); [reflexivity|].
  cbn. now rewrite Hx, (IH H).
Qed.

Lemma no_char_strip (c : ascii) (s : string) :
  Text.no_char c s = true -> Text.no_char c (strip s) = true.
Proof. intros H. now apply no_char_rstrip, no_char_lstrip. Qed.

Lemma split_join (c : ascii) (parts : list string) :
  parts <> [] ->
  Forall (fun piece => Text.no_char c piece = true) parts ->
  split_char c (join (String c "") parts) = parts.
Proof.
  induction parts as [|a parts IH]; [contradiction|]. intros _ Hall.
  inversion Hall as [|? ? Ha Hrest]; subst.
  destruct parts as [|b parts].
  - now apply split_char_no_char.
  - change (join (String c "") (a :: b :: parts))
      with (a ++ String c (join (String c "") (b :: parts))).
    rewrite (split_char_app _ _ _ Ha). f_equal.
    apply IH; [discriminate | exact Hrest].
Qed.

(** The lines the cleaning keeps. *)
Lemma kept_lines (text : string) :
  Forall (fun line => line <> "" /\ Text.trimmed line
                      /\ Text.no_char "010" line = true)
         (map strip (filter (fun line => negb (strip line =? ""))
                            (split_char "010" text))).
Proof.
  apply Forall_forall. intros line Hin. apply in_map_iff in Hin.
  destruct Hin as (raw & <- & Hin). apply filter_In in Hin.
  destruct Hin as [Hin Hkeep].
  pose proof (split_char_pieces "010" text) as Hpieces.
  rewrite Forall_forall in Hpieces.
  split; [|split].
  - apply negb_true_iff in Hkeep. now apply String.eqb_neq.
  - apply strip_idem.
  - apply no_char_strip, Hpieces, Hin.
Qed.

Lemma filter_map_kept (lines : list string) :
  Forall (fun line => line <> "" /\ Text.trimmed line
                      /\ Text.no_char "010" line = true) lines ->
  map strip (filter (fun line => negb (strip line =? "")) lines) = lines.
Proof.
  induction 1 as [|line lines (Hne & Htrim & _) _ IH]; [reflexivity|].
  cbn [filter]. rewrite Htrim.
  replace (line =? "") with false by (symmetry; now apply String.eqb_neq).
  cbn [negb map]. now rewrite Htrim, IH.
Qed.

(** X15: the cleaning of an instruction text is idempotent: cleaning a
    cleaned text changes nothing. *)
Theorem clean_instruction_idempotent (text : string) :
  clean_instruction (clean_instruction text) = clean_instruction text.
Proof.
  unfold clean_instruction.
  pose proof (kept_lines text) as Hkept.
  destruct (map strip (filter (fun line => negb (strip line =? ""))
                              (split_char "010" text))) as [|line lines] eqn:Hk.
  - reflexivity.
  - change nl with (String "010"%char "").
    rewrite split_join.
    + now rewrite (filter_map_kept _ Hkept).
    + discriminate.
    + eapply Forall_impl; [|exact Hkept]. cbn. tauto.
Qed.

(** X16: a cleaned instruction text is empty, or each of its lines is
    non-empty and has neither leading nor trailing whitespace. *)
Theorem clean_instruction_lines (text : string) :
  clean_instruction text = ""
  \/ Forall (fun line => line <> "" /\ Text.trimmed line)
            (split_char "010" (clean_instruction text)).
Proof.
  unfold clean_instruction.
  pose proof (kept_lines text) as Hkept.
  destruct (map strip (filter (fun line => negb (strip line =? ""))
                              (split_char "010" text))) as [|line lines] eqn:Hk.
  - now left.
  - right. change nl with (String "010"%char "").
    rewrite split_join.
    + eapply Forall_impl; [|exact Hkept]. cbn. tauto.
    + discriminate.
    + eapply Forall_impl; [|exact Hkept]. cbn. tauto.
Qed.

End Instructions.

(** ** Storage (gmail_sync.py) *)

Section Storage.
Import gmail_store StoreSpec.

Variable database : Type.
Variable execute : database -> db_request -> database * result bool.

Lemma take_length (n : nat) (s : string) : String.length (take n s) <= n.
Proof.
  revert s; induction n as [|n IH]; intros [|c s]; cbn; try lia.
  specialize (IH s). lia.
Qed.

Lemma store_email_invariant (visited : nat) (st : loop_state database)
    (email : email_obj) :
  store_invariant visited st ->
  store_invariant (S visited) (store_email execute st email).
Proof.
  destruct st as [[db sent] n]. unfold store_invariant, store_email.
  intros (Hsum & Hskip & Hlen & Hrows).
  pose proof (take_length 1000 (triage_reasoning email)) as Hshort.
  set (reasoning := take 1000 (triage_reasoning email)) in *.
  clearbody reasoning.
  assert (Hold : forall (rq : db_request) row,
             (forall row', rq = Insert row' ->
                row_category row' <> "ignore"
                /\ row_processing_status row' = "pending"
                /\ String.length (row_triage_reasoning row') <= 1000) ->
             In (Insert row) (sent ++ [rq]) ->
             row_category row <> "ignore"
             /\ row_processing_status row = "pending"
             /\ String.length (row_triage_reasoning row) <= 1000).
  { intros rq row Hrq Hin. apply in_app_or in Hin.
    destruct Hin as [Hin | [Hin | []]]; [now apply Hrows | now apply Hrq]. }
  destruct ((category email =? "ignore") && negb (reprocessed email)) eqn:Hign.
  - cbn [success_count skip_count fail_count ignored_count updated_count].
    split; [lia | split; [exact Hskip | split; [lia | exact Hrows]]].
  - destruct (reprocessed email) eqn:Hre.
    + destruct (execute db _) as [db' [[|]|e]];
        cbn [count_request success_count skip_count fail_count ignored_count
             updated_count];
        rewrite List.length_app; cbn [List.length];
        (split; [lia | split; [exact Hskip | split; [lia|]]];
         intros row; apply Hold; intros row' Hrow; discriminate Hrow).
    + rewrite andb_true_r in Hign. apply String.eqb_neq in Hign.
      destruct (execute db _) as [db' [[|]|e]];
        cbn [count_request success_count skip_count fail_count ignored_count
             updated_count];
        rewrite List.length_app; cbn [List.length];
        (split; [lia | split; [exact Hskip | split; [lia|]]];
         intros row; apply Hold; intros row' Hrow; injection Hrow as <-;
         cbn [row_category row_processing_status row_triage_reasoning];
         split; [exact Hign | split; [reflexivity | exact Hshort]]).
Qed.

Lemma store_fold_invariant (emails : list email_obj) (visited : nat)
    (st : loop_state database) :
  store_invariant visited st ->
  store_invariant (visited + List.length emails)
                  (fold_left (store_email execute) emails st).
Proof.
  revert visited st. induction emails as [|email emails IH]; intros visited st H.
  - cbn. now rewrite Nat.add_0_r.
  - cbn [fold_left List.length]. rewrite Nat.add_succ_r.
    apply (IH (S visited)). now apply store_email_invariant.
Qed.

Lemma store_loop_invariant (db : database) (emails : list email_obj) :
  store_invariant (List.length emails) (store_loop execute db emails).
Proof.
  apply (store_fold_invariant emails 0). cbn.
  split; [reflexivity | split; [reflexivity | split; [reflexivity|]]].
  intros row [].
Qed.

(** X17: [store_emails] counts every email exactly once, as imported,
    failed, ignored or updated, and never as skipped; it sends one
    request for each email that is not counted as ignored. *)
Theorem store_emails_counts_every_email (db : database)
    (emails : list email_obj) :
  exists imported failed ignored updated db' sent,
    store_emails execute db emails true
    = ([imported; 0; failed; ignored; updated], db', sent)
    /\ store_emails execute db emails false
       = ([imported; 0; failed; ignored], db', sent)
    /\ imported + failed + ignored + updated = List.length emails
    /\ List.length sent + ignored = List.length emails.
Proof.
  pose proof (store_loop_invariant db emails) as H.
  unfold store_emails. destruct (store_loop execute db emails) as [[db' sent] n].
  destruct H as (Hsum & Hskip & Hlen & _).
  exists (success_count n), (fail_count n), (ignored_count n),
    (updated_count n), db', sent.
  rewrite Hskip. repeat split; lia.
Qed.

(** X18: [store_emails] never inserts an email triaged "ignore": every
    row it inserts has another category, the processing status
    "pending", and a triage reasoning of at most 1000 characters. *)
Theorem store_emails_never_inserts_ignored (db : database)
    (emails : list email_obj) (reprocess_all : bool) (row : email_row) :
  In (Insert row) (snd (store_emails execute db emails reprocess_all)) ->
  row_category row <> "ignore"
  /\ row_processing_status row = "pending"
  /\ String.length (row_triage_reasoning row) <= 1000.
Proof.
  pose proof (store_loop_invariant db emails) as H.
  unfold store_emails. destruct (store_loop execute db emails) as [[db' sent] n].
  destruct H as (_ & _ & _ & Hrows). cbn [snd]. apply Hrows.
Qed.

Lemma store_email_insert_only (st : loop_state database) (email : email_obj) :
  reprocessed email = false ->
  insert_only st -> insert_only (store_email execute st email).
Proof.
  destruct st as [[db sent] n]. unfold insert_only, store_email.
  intros Hre (Hupd & Hsent). rewrite Hre. cbn [negb andb].
  rewrite andb_true_r.
  destruct (category email =? "ignore").
  - cbn [updated_count]. now split.
  - destruct (execute db _) as [db' [[|]|e]];
      cbn [count_request success_count skip_count fail_count ignored_count
           updated_count];
      (split; [exact Hupd|]; intros rq Hin; apply in_app_or in Hin;
       destruct Hin as [Hin | [<- | []]]; [now apply Hsent | eauto]).
Qed.

Lemma store_fold_insert_only (emails : list email_obj)
    (st : loop_state database) :
  Forall (fun email => reprocessed email = false) emails ->
  insert_only st -> insert_only (fold_left (store_email execute) emails st).
Proof.
  intros Hall. revert st.
  induction Hall as [|email emails Hre _ IH]; intros st H; [exact H|].
  cbn [fold_left]. apply IH. now apply store_email_insert_only.
Qed.

(** X19: when no email is flagged as reprocessed (the case of a sync or
    an initial import), nothing is updated: only inserts are sent, and
    the four counters returned account for every email. *)
Theorem store_emails_import_only_inserts (db : database)
    (emails : list email_obj) :
  Forall (fun email => reprocessed email = false) emails ->
  exists imported failed ignored db' sent,
    store_emails execute db emails false
    = ([imported; 0; failed; ignored], db', sent)
    /\ imported + failed + ignored = List.length emails
    /\ forall rq, In rq sent -> exists row, rq = Insert row.
Proof.
  intros Hall.
  pose proof (store_loop_invariant db emails) as H.
  assert (Hins : insert_only (store_loop execute db emails)).
  { apply store_fold_insert_only; [exact Hall|]. cbn. split; [reflexivity|].
    intros rq []. }
  unfold store_emails. destruct (store_loop execute db emails) as [[db' sent] n].
  destruct H as (Hsum & Hskip & _ & _). destruct Hins as (Hupd & Hsent).
  exists (success_count n), (fail_count n), (ignored_count n), db', sent.
  rewrite Hskip. repeat split; [lia | exact Hsent].
Qed.

End Storage.


(** A sync of two emails, one triaged "ignore" and one "notify": the row
    inserted is the second. *)
Lemma store_emails_never_inserts_ignored_witness :
  "notify" <> "ignore"
  /\ "pending" = "pending"
  /\ String.length "A friend asks about lunch." <= 1000.
Proof.
  apply (store_emails_never_inserts_ignored unit accepting_db tt
           [sample_email "1" "ignore" "A newsletter." false;
            sample_email "2" "notify" "A friend asks about lunch." false]
           false
           (gmail_store.mk_row "Lunch on Friday?" "janedoe@gmail.com"
              ["aaron@whaleylawfirm.com"] [] [] "See you at noon." "2"
              "2025-03-14T09:26:53" "notify" "A friend asks about lunch."
              "pending")).
  vm_compute. left. reflexivity.
Defined.

(** The same sync: two emails, none flagged as reprocessed. *)
Lemma store_emails_import_only_inserts_witness :
  exists imported failed ignored db' sent,
    gmail_store.store_emails accepting_db tt
      [sample_email "1" "ignore" "A newsletter." false;
       sample_email "2" "notify" "A friend asks about lunch." false] false
    = ([imported; 0; failed; ignored], db', sent)
    /\ imported + failed + ignored = 2
    /\ forall rq, In rq sent -> exists row, rq = gmail_store.Insert row.
Proof.
  apply (store_emails_import_only_inserts unit accepting_db tt
           [sample_email "1" "ignore" "A newsletter." false;
            sample_email "2" "notify" "A friend asks about lunch." false]).
  repeat constructor.
Defined.

(** ** Words and chunks (process_emails.py) *)

Section Chunks.
Import process_emails.

Lemma words_parts_spec (s : string) :
  Text.no_space (fst (words_parts s)) = true
  /\ Forall (fun w => Text.is_word w = true) (snd (words_parts s)).
Proof.
  induction s as [|x s [IHw IHws]]; cbn [words_parts].
  - split; [reflexivity | constructor].
  - destruct (words_parts s) as [w ws]. cbn [fst snd] in *.
    destruct (isspace x) eqn:Hx; cbn [fst snd].
    + split; [reflexivity|].
      destruct (w =? "") eqn:Hw; [exact IHws|].
      constructor; [|exact IHws]. unfold Text.is_word. now rewrite Hw, IHw.
    + split; [|exact IHws]. cbn. now rewrite Hx, IHw.
Qed.

Lemma words_all_words (s : string) :
  Forall (fun w => Text.is_word w = true) (words s).
Proof.
  unfold words. destruct (words_parts_spec s) as [Hw Hws].
  destruct (words_parts s) as [w ws]. cbn [fst snd] in *.
  destruct (w =? "") eqn:He; [exact Hws|].
  constructor; [|exact Hws]. unfold Text.is_word. now rewrite He, Hw.
Qed.

Lemma words_parts_word_app (w x : string) :
  Text.no_space w = true ->
  words_parts (w ++ x)
  = (w ++ fst (words_parts x), snd (words_parts x)).
Proof.
  induction w as [|c w IH]; cbn [append words_parts Text.no_space].
  - now destruct (words_parts x).
  - intros H. apply andb_true_iff in H. destruct H as [Hc H].
    apply negb_true_iff in Hc. now rewrite (IH H), Hc.
Qed.

Lemma words_word_space (w x : string) :
  Text.is_word w = true -> words (w ++ " " ++ x) = w :: words x.
Proof.
  unfold Text.is_word. intros H. apply andb_true_iff in H.
  destruct H as [Hne Hns]. apply negb_true_iff in Hne.
  unfold words. rewrite (words_parts_word_app w _ Hns).
  change (words_parts (" " ++ x))
    with (let '(w0, ws0) := words_parts x in
          ("", if w0 =? "" then ws0 else w0 :: ws0)).
  destruct (words_parts x) as [w0 ws0]. cbn [fst snd].
  now rewrite append_empty_r, Hne.
Qed.

Lemma words_word (w : string) : Text.is_word w = true -> words w = [w].
Proof.
  unfold Text.is_word. intros H. apply andb_true_iff in H.
  destruct H as [Hne Hns]. apply negb_true_iff in Hne.
  unfold words. rewrite <- (append_empty_r w) at 1.
  rewrite (words_parts_word_app w _ Hns). cbn [words_parts fst snd].
  now rewrite append_empty_r, Hne.
Qed.

(** Words joined by single spaces split back into the same words. *)
Lemma words_join (ws : list string) :
  Forall (fun w => Text.is_word w = true) ws -> words (join " " ws) = ws.
Proof.
  induction 1 as [|w ws Hw Hws IH]; [reflexivity|].
  destruct ws as [|v ws].
  - now apply words_word.
  - change (join " " (w :: v :: ws)) with (w ++ " " ++ join " " (v :: ws)).
    now rewrite (words_word_space w _ Hw), IH.
Qed.

Lemma join_snoc_length (cur : list string) (w : string) :
  String.length (join " " (cur ++ [w])%list)
  <= String.length (join " " cur) + String.length w + 1.
Proof.
  induction cur as [|a cur IH]; cbn [app].
  - cbn. lia.
  - destruct cur as [|b cur].
    + cbn [app join String.concat]. rewrite !length_app. cbn. lia.
    + change (join " " (a :: (b :: cur) ++ [w])%list)
        with (a ++ " " ++ join " " ((b :: cur) ++ [w])%list).
      change (join " " (a :: b :: cur)) with (a ++ " " ++ join " " (b :: cur)).
      rewrite !length_app. cbn [String.length] in *. lia.
Qed.

Lemma chunk_loop_acc (n : Z) (ws chunks cur : list string) (len : nat) :
  chunk_loop n ws chunks cur len = (chunks ++ chunk_loop n ws [] cur len)%list.
Proof.
  revert chunks cur len. induction ws as [|w ws IH]; intros chunks cur len.
  - cbn. destruct cur; [now rewrite app_nil_r | reflexivity].
  - cbn [chunk_loop].
    destruct ((n <? Z.of_nat (len + String.length w + 1))%Z
              && match cur with [] => false | _ :: _ => true end).
    + rewrite IH. rewrite (IH ([] ++ _)%list). now rewrite app_assoc.
    + apply IH.
Qed.

Lemma chunk_loop_words (n : Z) (ws cur : list string) (len : nat) :
  Forall (fun w => Text.is_word w = true) (cur ++ ws)%list ->
  concat (map words (chunk_loop n ws [] cur len)) = (cur ++ ws)%list.
Proof.
  revert cur len. induction ws as [|w ws IH]; intros cur len Hall.
  - cbn [chunk_loop]. rewrite app_nil_r in *. destruct cur as [|a cur].
    + reflexivity.
    + cbn [app map concat]. now rewrite app_nil_r, words_join.
  - cbn [chunk_loop].
    destruct ((n <? Z.of_nat (len + String.length w + 1))%Z
              && match cur with [] => false | _ :: _ => true end).
    + rewrite chunk_loop_acc. cbn [app map concat].
      apply Forall_app in Hall. destruct Hall as [Hcur Hws].
      rewrite (words_join cur Hcur). f_equal. now apply (IH [w]).
    + rewrite IH; rewrite <- app_assoc; [reflexivity | exact Hall].
Qed.

(** X20: chunking neither loses, nor adds, nor reorders words: the
    words of the chunks, read in order, are the words of the text. *)
Theorem split_into_chunks_keeps_words (text : string) (chunk_size : Z) :
  concat (map words (split_into_chunks (Some text) chunk_size)) = words text.
Proof.
  unfold split_into_chunks.
  destruct (negb (truthy (Some text))) eqn:He.
  - cbn [truthy] in He. apply negb_true_iff, negb_false_iff, String.eqb_eq in He.
    now subst text.
  - apply (chunk_loop_words chunk_size (words text) [] 0).
    apply words_all_words.
Qed.

Lemma chunk_loop_bound (n : Z) (ws cur : list string) (len : nat) :
  Forall (fun w => Text.is_word w = true) (cur ++ ws)%list ->
  String.length (join " " cur) <= len ->
  List.length cur <= 1 \/ (Z.of_nat len <= n)%Z ->
  Forall (fun chunk => Text.is_word chunk = true
                       \/ (Z.of_nat (String.length chunk) <= n)%Z)
         (chunk_loop n ws [] cur len).
Proof.
  revert cur len. induction ws as [|w ws IH]; intros cur len Hall Hlen Hinv.
  - assert (Hemit : forall a rest, cur = a :: rest ->
               Text.is_word (join " " cur) = true
               \/ (Z.of_nat (String.length (join " " cur)) <= n)%Z).
    { intros a rest ->. destruct Hinv as [Hone | Hfit]; [left | right; lia].
      destruct rest; [|cbn in Hone; lia].
      now inversion Hall. }
    cbn [chunk_loop]. destruct cur as [|a cur]; [constructor|].
    cbn [app]. constructor; [now apply (Hemit a cur) | constructor].
  - cbn [chunk_loop].
    destruct (Z.ltb_spec n (Z.of_nat (len + String.length w + 1))) as [Hbig|Hfit];
      cbn [andb].
    + destruct cur as [|a cur].
      * cbn [app]. apply IH.
        -- exact Hall.
        -- cbn. lia.
        -- left. cbn. lia.
      * rewrite chunk_loop_acc. cbn [app].
        apply Forall_app in Hall. destruct Hall as [Hcur Hws].
        constructor.
        -- destruct Hinv as [Hone | Hok]; [left | right; lia].
           destruct cur; [|cbn in Hone; lia]. now inversion Hcur.
        -- apply (IH [w]); [exact Hws | cbn; lia | left; cbn; lia].
    + apply IH.
      * now rewrite <- app_assoc.
      * pose proof (join_snoc_length cur w). lia.
      * right. lia.
Qed.

(** X21: with a non-negative chunk size, every chunk is at most
    [chunk_size] characters long, unless it consists of one single word
    (a word longer than the chunk size is never cut). *)
Theorem split_into_chunks_size (text : pyarg) (chunk_size : Z) :
  (0 <= chunk_size)%Z ->
  Forall (fun chunk => Text.is_word chunk = true
                       \/ (Z.of_nat (String.length chunk) <= chunk_size)%Z)
         (split_into_chunks text chunk_size).
Proof.
  intros Hsize. unfold split_into_chunks.
  destruct text as [t|]; [|constructor; [right; cbn; lia | constructor]].
  destruct (negb (truthy (Some t)));
    [constructor; [right; cbn; lia | constructor]|].
  apply chunk_loop_bound.
  - apply words_all_words.
  - cbn. lia.
  - left. cbn. lia.
Qed.

Lemma join_words_nonempty (cur : list string) :
  cur <> [] -> Forall (fun w => Text.is_word w = true) cur ->
  join " " cur <> "".
Proof.
  intros Hne Hall He. apply words_join in Hall. rewrite He in Hall.
  cbn in Hall. now subst cur.
Qed.

Lemma chunk_loop_nonempty (n : Z) (ws cur : list string) (len : nat) :
  Forall (fun w => Text.is_word w = true) (cur ++ ws)%list ->
  Forall (fun chunk => chunk <> "") (chunk_loop n ws [] cur len).
Proof.
  revert cur len. induction ws as [|w ws IH]; intros cur len Hall.
  - cbn [chunk_loop]. rewrite app_nil_r in Hall.
    destruct cur as [|a cur]; [constructor|].
    cbn [app]. constructor; [|constructor].
    now apply join_words_nonempty.
  - cbn [chunk_loop].
    destruct ((n <? Z.of_nat (len + String.length w + 1))%Z
              && match cur with [] => false | _ :: _ => true end) eqn:Hc.
    + rewrite chunk_loop_acc. cbn [app].
      apply Forall_app in Hall. destruct Hall as [Hcur Hws].
      constructor.
      * apply join_words_nonempty; [|exact Hcur].
        destruct cur; [now rewrite andb_false_r in Hc | discriminate].
      * now apply (IH [w]).
    + apply IH. now rewrite <- app_assoc.
Qed.

(** X22: a non-empty text never gives an empty chunk, and gives no
    chunk at all exactly when it consists of whitespace only, whereas
    the empty text gives one empty chunk. *)
Theorem split_into_chunks_no_empty_chunk (text : string) (chunk_size : Z) :
  text <> "" ->
  Forall (fun chunk => chunk <> "") (split_into_chunks (Some text) chunk_size)
  /\ (split_into_chunks (Some text) chunk_size = [] <-> words text = [])
  /\ split_into_chunks (Some "") chunk_size = [""].
Proof.
  intros Hne.
  pose proof (chunk_loop_words chunk_size (words text) [] 0
                (words_all_words text)) as Hwords.
  unfold split_into_chunks. cbn [truthy].
  replace (text =? "") with false by (symmetry; now apply String.eqb_neq).
  cbn [negb]. split; [|split; [split|reflexivity]].
  - apply chunk_loop_nonempty. apply words_all_words.
  - intros He. rewrite He in Hwords. cbn in Hwords. now symmetry.
  - intros ->. reflexivity.
Qed.

End Chunks.

(** Five words in chunks of at most seven characters. *)
Lemma split_into_chunks_size_witness :
  Forall (fun chunk => Text.is_word chunk = true
                       \/ (Z.of_nat (String.length chunk) <= 7)%Z)
         (process_emails.split_into_chunks (Some "aaa bb c dddddddddd ee") 7).
Proof.
  apply (split_into_chunks_size (Some "aaa bb c dddddddddd ee") 7). lia.
Defined.

(** A text of three spaces: no chunk. *)
Lemma split_into_chunks_no_empty_chunk_witness :
  Forall (fun chunk => chunk <> "")
         (process_emails.split_into_chunks (Some "   ") 2000)
  /\ (process_emails.split_into_chunks (Some "   ") 2000 = []
      <-> words "   " = [])
  /\ process_emails.split_into_chunks (Some "") 2000 = [""].
Proof.
  apply (split_into_chunks_no_empty_chunk "   " 2000). discriminate.
Defined.

(** ** Words of a cleaned instruction text *)

Section CleanedWords.
Import instructions.

Lemma words_parts_app_space (a y : string) (c : ascii) :
  isspace c = true ->
  words_parts (a ++ String c y)
  = (fst (words_parts a), (snd (words_parts a) ++ words y)%list).
Proof.
  intros Hc. induction a as [|x a IH]; cbn [append words_parts fst snd].
  - rewrite Hc. unfold words. now destruct (words_parts y).
  - rewrite IH. destruct (words_parts a) as [w ws]. cbn [fst snd].
    destruct (isspace x); [|reflexivity].
    cbn [fst snd]. now destruct (w =? "").
Qed.

Lemma words_app_space (a y : string) (c : ascii) :
  isspace c = true -> words (a ++ String c y) = (words a ++ words y)%list.
Proof.
  intros Hc. unfold words at 1 2. rewrite (words_parts_app_space a y c Hc).
  destruct (words_parts a) as [w ws]. cbn [fst snd].
  now destruct (w =? "").
Qed.

Lemma words_parts_rstrip (s : string) : words_parts (rstrip s) = words_parts s.
Proof.
  induction s as [|x s IH]; [reflexivity|]. cbn [rstrip].
  destruct (isspace x) eqn:Hx; cbn [andb].
  - destruct (String.eqb_spec (rstrip s) "") as [He|Hne].
    + cbn [words_parts]. rewrite <- IH, He, Hx. reflexivity.
    + cbn [words_parts]. now rewrite IH.
  - cbn [words_parts]. now rewrite IH.
Qed.

Lemma words_lstrip (s : string) : words (lstrip s) = words s.
Proof.
  induction s as [|x s IH]; [reflexivity|]. cbn [lstrip].
  destruct (isspace x) eqn:Hx; [|reflexivity].
  rewrite IH. unfold words. cbn [words_parts]. rewrite Hx.
  now destruct (words_parts s).
Qed.

Lemma words_strip (s : string) : words (strip s) = words s.
Proof.
  unfold strip. unfold words at 1. rewrite words_parts_rstrip.
  apply words_lstrip.
Qed.

(** Splitting at a character and joining with it gives the text back. *)
Lemma join_split (c : ascii) (s : string) :
  join (String c "") (split_char c s) = s.
Proof.
  unfold split_char. induction s as [|x s IH]; [reflexivity|].
  cbn [split_parts]. destruct (split_parts c s) as [h t].
  destruct (Ascii.eqb_spec x c) as [-> | Hne].
  - change (join (String c "") ("" :: h :: t))
      with (String c (join (String c "") (h :: t))).
    now rewrite IH.
  - destruct t as [|p t]; cbn in *; now rewrite IH.
Qed.

Lemma words_join_lines (lines : list string) :
  words (join nl lines) = concat (map words lines).
Proof.
  induction lines as [|line lines IH]; [reflexivity|].
  destruct lines as [|next lines].
  - cbn. now rewrite app_nil_r.
  - change (join nl (line :: next :: lines))
      with (line ++ String "010" (join nl (next :: lines))).
    rewrite words_app_space by reflexivity. now rewrite IH.
Qed.

Lemma words_kept_lines (lines : list string) :
  concat (map words (map strip (filter (fun line => negb (strip line =? ""))
                                       lines)))
  = concat (map words lines).
Proof.
  induction lines as [|line lines IH]; [reflexivity|]. cbn [filter map concat].
  destruct (String.eqb_spec (strip line) "") as [He|Hne]; cbn [negb].
  - rewrite IH. rewrite <- (words_strip line), He. reflexivity.
  - cbn [map concat]. now rewrite IH, words_strip.
Qed.

(** X23: the cleaning of an instruction text only touches whitespace:
    the cleaned text has the same words, in the same order. *)
Theorem clean_instruction_keeps_words (text : string) :
  words (clean_instruction text) = words text.
Proof.
  unfold clean_instruction.
  rewrite words_join_lines, words_kept_lines, <- words_join_lines.
  change nl with (String "010"%char ""). now rewrite join_split.
Qed.

End CleanedWords.

(** ** The reasoning is never empty *)

Section Reasoning.

Lemma rstrip_length (s : string) : String.length (rstrip s) <= String.length s.
Proof.
  induction s as [|c s IH]; cbn; [lia|].
  destruct (isspace c && (rstrip s =? "")); cbn; lia.
Qed.

Lemma break_nl_app (s h t : string) :
  break_nl s = (h, Some t) -> s = h ++ nl ++ t.
Proof.
  revert h. induction s as [|c s IH]; intros h; cbn [break_nl]; [discriminate|].
  destruct (Ascii.eqb_spec c "010") as [-> | Hc].
  - intros H. now injection H as <- <-.
  - destruct (break_nl s) as [h' t']. intros H. injection H as <- ->.
    cbn [append]. now rewrite (IH h' eq_refl).
Qed.

(** In a trimmed text the part after the first newline is not blank. *)
Lemma trimmed_rest_not_blank (s h t : string) :
  rstrip s = s -> break_nl s = (h, Some t) -> strip t <> "".
Proof.
  intros Hs Hb He. apply break_nl_app in Hb. subst s.
  apply String.eqb_eq in He. rewrite <- rstrip_empty_strip in He.
  rewrite <- append_assoc, rstrip_app, He, rstrip_app in Hs.
  change (rstrip nl =? "") with true in Hs.
  pose proof (rstrip_length h) as Hlen. rewrite Hs in Hlen.
  rewrite !length_app in Hlen. cbn in Hlen. lia.
Qed.

Lemma parse_result_reasoning (raw : string) : snd (parse_result raw) <> "".
Proof.
  unfold parse_result.
  assert (Htrim : rstrip (strip raw) = strip raw) by apply rstrip_idem.
  unfold split1.
  destruct (break_nl (strip raw)) as [h [t|]] eqn:Hb.
  - pose proof (trimmed_rest_not_blank _ _ _ Htrim Hb) as Hne.
    destruct (strip (lower h) =? "ignore"); [exact Hne|].
    destruct (strip (lower h) =? "notify"); [exact Hne|].
    destruct (strip (lower h) =? "respond"); [exact Hne | discriminate].
  - destruct (strip (lower h) =? "ignore"); [discriminate|].
    destruct (strip (lower h) =? "notify"); [discriminate|].
    destruct (strip (lower h) =? "respond"); discriminate.
Qed.

Variables subject sender : pyarg.

Ltac reasoning_cases :=
  match goal with
  | |- bind ?m _ = _ -> _ =>
      destruct m as [[|]|e]; cbn [bind]; intros H Hne; inversion H; subst;
      cbn [snd] in *; [discriminate | exact Hne]
  end.

Lemma safeguard_message_reasoning (cr cr' : string * string) :
  safeguard_message cr subject sender = Return cr' ->
  snd cr <> "" -> snd cr' <> "".
Proof. destruct cr as [c r]. unfold safeguard_message. reasoning_cases. Qed.

Lemma safeguard_legal_reasoning (cr cr' : string * string) :
  safeguard_legal cr subject = Return cr' -> snd cr <> "" -> snd cr' <> "".
Proof. destruct cr as [c r]. unfold safeguard_legal. reasoning_cases. Qed.

Lemma safeguard_bill_reasoning (cr cr' : string * string) :
  safeguard_bill cr subject = Return cr' -> snd cr <> "" -> snd cr' <> "".
Proof. destruct cr as [c r]. unfold safeguard_bill. reasoning_cases. Qed.

(** X24: whenever [triage_email] returns, for any subject, body and
    sender and any answer of the crew, the reasoning it returns is not
    empty. *)
Theorem triage_reasoning_never_empty (self : EmailTriageAgent) (body : pyarg)
    (category reasoning : string) :
  triage_email self subject body sender = Return (category, reasoning) ->
  reasoning <> "".
Proof.
  destruct (triage_email_paths self subject body sender)
    as [(c & confidence & reason & _ & _ & ->) | (reason & _ & ->)].
  - intros H. injection H as _ <-. discriminate.
  - unfold llm_triage.
    destruct (crew_kickoff self (email_content subject body sender)) as [raw|];
      [|discriminate].
    cbn [bind]. unfold apply_safeguards.
    destruct (safeguard_message (parse_result raw) subject sender)
      as [cr1|] eqn:H1; [|discriminate]. cbn [bind].
    destruct (safeguard_legal cr1 subject) as [cr2|] eqn:H2; [|discriminate].
    cbn [bind]. intros H3.
    apply safeguard_bill_reasoning in H3; [exact H3|].
    apply (safeguard_legal_reasoning _ _ H2).
    apply (safeguard_message_reasoning _ _ H1).
    apply parse_result_reasoning.
Qed.

End Reasoning.

(** An answer without any reasoning. *)
Lemma triage_reasoning_never_empty_witness :
  "No reasoning provided" <> "".
Proof.
  apply (triage_reasoning_never_empty None None (answering "notify") None
           "notify" "No reasoning provided").
  reflexivity.
Defined.

(** ** The body cannot demote an important email *)

Section BodyIndependence.

Variable self : EmailTriageAgent.

(** X25: a verdict "notify" or "respond" of the Indicator Matcher does
    not depend on the body: the matcher returns the same triple for
    every other body, so no content of the body (links, unsubscribe
    footers) can turn such an email into an ignored one. *)
Theorem analyze_important_for_every_body
    (subject body body' sender : pyarg) (c : string) (confidence : Q)
    (reason : string) :
  _analyze_email_indicators self subject body sender
  = (Some c, confidence, reason) ->
  c <> "ignore" ->
  _analyze_email_indicators self subject body' sender
  = (Some c, confidence, reason).
Proof.
  unfold _analyze_email_indicators.
  destruct (any_in message_terms (lower_or_empty subject)
            && contains "ringcentral" (lower_or_empty sender)); [tauto|].
  destruct ((contains "bill" (lower_or_empty subject)
             && contains "due" (lower_or_empty subject))
            || contains "payment required" (lower_or_empty subject)); [tauto|].
  destruct (find _ legal_indicators); [tauto|].
  destruct (any_in team_domains (lower_or_empty sender)); [tauto|].
  intros H Hne. exfalso.
  destruct (filter_verdict_cases (lower_or_empty subject) (lower_or_empty body)
              (lower_or_empty sender)) as [[r Hv] | Hv];
    rewrite Hv in H; [|discriminate].
  injection H as <- _ _. now apply Hne.
Qed.

End BodyIndependence.

(** A bill that is due, with a body full of marketing signals. *)
Lemma analyze_important_for_every_body_witness :
  _analyze_email_indicators (answering "ignore")
    (Some "Your bill is due") (Some "Unsubscribe to stop this special offer")
    (Some "billing@utility.com")
  = (Some "notify", 0.95%Q, "Bill or payment notification").
Proof.
  apply (analyze_important_for_every_body (answering "ignore")
           (Some "Your bill is due") None
           (Some "Unsubscribe to stop this special offer")
           (Some "billing@utility.com")
           "notify" 0.95%Q "Bill or payment notification").
  - reflexivity.
  - discriminate.
Defined.

(** ** Overrides do not stack *)

Section Overrides.

Variables subject sender : pyarg.

Ltac override_cases :=
  match goal with
  | |- bind ?m _ = _ -> _ =>
      destruct m as [[|]|e]; cbn [bind]; intros H; inversion H; subst;
      [right; split; reflexivity | left; reflexivity]
  end.

Lemma safeguard_message_override (cr cr' : string * string) :
  safeguard_message cr subject sender = Return cr' ->
  cr' = cr
  \/ (fst cr = "ignore"
      /\ cr' = ("notify",
                "SAFEGUARD OVERRIDE: Voice/text/fax messages should not be ignored."
                  ++ nl ++ "Original reasoning: " ++ snd cr)).
Proof.
  destruct cr as [c r]. unfold safeguard_message. cbn [fst snd].
  destruct (String.eqb_spec c "ignore") as [-> | Hne].
  - override_cases.
  - cbn [bind]. intros H. inversion H. now left.
Qed.

Lemma safeguard_legal_override (cr cr' : string * string) :
  safeguard_legal cr subject = Return cr' ->
  cr' = cr
  \/ (fst cr = "ignore"
      /\ cr' = ("respond",
                "SAFEGUARD OVERRIDE: Legal correspondence should not be ignored."
                  ++ nl ++ "Original reasoning: " ++ snd cr)).
Proof.
  destruct cr as [c r]. unfold safeguard_legal. cbn [fst snd].
  destruct (String.eqb_spec c "ignore") as [-> | Hne].
  - override_cases.
  - cbn [bind]. intros H. inversion H. now left.
Qed.

Lemma safeguard_bill_override (cr cr' : string * string) :
  safeguard_bill cr subject = Return cr' ->
  cr' = cr
  \/ (fst cr = "ignore"
      /\ cr' = ("notify",
                "SAFEGUARD OVERRIDE: Bills and payment notices should not be ignored."
                  ++ nl ++ "Original reasoning: " ++ snd cr)).
Proof.
  destruct cr as [c r]. unfold safeguard_bill. cbn [fst snd].
  destruct (String.eqb_spec c "ignore") as [-> | Hne].
  - override_cases.
  - cbn [bind]. intros H. inversion H. now left.
Qed.

(** X26: the three safeguards never stack: their result is the verdict
    they were given, or, for an "ignore" verdict, exactly one override,
    which sets "notify" or "respond" and keeps the original reasoning
    behind its note. *)
Theorem apply_safeguards_single_override (cr cr' : string * string) :
  apply_safeguards cr subject sender = Return cr' ->
  cr' = cr
  \/ (fst cr = "ignore"
      /\ exists category note,
           In (category, note)
              [("notify",
                "SAFEGUARD OVERRIDE: Voice/text/fax messages should not be ignored.");
               ("respond",
                "SAFEGUARD OVERRIDE: Legal correspondence should not be ignored.");
               ("notify",
                "SAFEGUARD OVERRIDE: Bills and payment notices should not be ignored.")]
           /\ cr' = (category, note ++ nl ++ "Original reasoning: " ++ snd cr)).
Proof.
  unfold apply_safeguards.
  destruct (safeguard_message cr subject sender) as [cr1|] eqn:H1; [|discriminate].
  cbn [bind]. apply safeguard_message_override in H1.
  destruct H1 as [-> | [Hc ->]].
  - destruct (safeguard_legal cr subject) as [cr2|] eqn:H2; [|discriminate].
    cbn [bind]. apply safeguard_legal_override in H2.
    destruct H2 as [-> | [Hc ->]].
    + intros H3. apply safeguard_bill_override in H3.
      destruct H3 as [-> | [Hc ->]]; [now left|].
      right. split; [exact Hc|].
      exists "notify",
        "SAFEGUARD OVERRIDE: Bills and payment notices should not be ignored.".
      split; [cbn [In]; tauto | reflexivity].
    + rewrite safeguard_bill_pass by (cbn [fst]; discriminate).
      intros H. injection H as <-.
      right. split; [exact Hc|].
      exists "respond",
        "SAFEGUARD OVERRIDE: Legal correspondence should not be ignored.".
      split; [cbn [In]; tauto | reflexivity].
  - rewrite safeguard_legal_pass by (cbn [fst]; discriminate). cbn [bind].
    rewrite safeguard_bill_pass by (cbn [fst]; discriminate).
    intros H. injection H as <-.
    right. split; [exact Hc|].
    exists "notify",
      "SAFEGUARD OVERRIDE: Voice/text/fax messages should not be ignored.".
    split; [cbn [In]; tauto | reflexivity].
Qed.

End Overrides.

(** A fax from RingCentral about a court case whose bill is due: all
    three conditions hold, only the first override is applied. *)
Lemma apply_safeguards_single_override_witness :
  ("notify",
   "SAFEGUARD OVERRIDE: Voice/text/fax messages should not be ignored."
     ++ nl ++ "Original reasoning: spam")
  = ("ignore", "spam")
  \/ (fst ("ignore", "spam") = "ignore"
      /\ exists category note,
           In (category, note)
              [("notify",
                "SAFEGUARD OVERRIDE: Voice/text/fax messages should not be ignored.");
               ("respond",
                "SAFEGUARD OVERRIDE: Legal correspondence should not be ignored.");
               ("notify",
                "SAFEGUARD OVERRIDE: Bills and payment notices should not be ignored.")]
           /\ ("notify",
               "SAFEGUARD OVERRIDE: Voice/text/fax messages should not be ignored."
                 ++ nl ++ "Original reasoning: spam")
              = (category, note ++ nl ++ "Original reasoning: "
                             ++ snd ("ignore", "spam"))).
Proof.
  apply (apply_safeguards_single_override
           (Some "Fax: court case bill due") (Some "fax@ringcentral.com")
           ("ignore", "spam")
           ("notify",
            "SAFEGUARD OVERRIDE: Voice/text/fax messages should not be ignored."
              ++ nl ++ "Original reasoning: spam")).
  reflexivity.
Defined.

(** ** The safeguards have nothing left to override *)

Section SafeguardsSubsumed.

Variable self : EmailTriageAgent.

(** When the matcher is inconclusive, its rules 1 to 3 have not fired,
    so no rule of the policy holds. *)
Lemma analyze_none_no_rule (subject sender : string) (body : pyarg)
    (confidence : Q) (reason : string) :
  _analyze_email_indicators self (Some subject) body (Some sender)
  = (None, confidence, reason) ->
  forall r, In r Spec.rules -> Spec.holds r subject sender = false.
Proof.
  unfold _analyze_email_indicators. rewrite !lower_or_empty_Some.
  destruct (any_in message_terms (lower subject)
            && contains "ringcentral" (lower sender)) eqn:H1; [discriminate|].
  destruct ((contains "bill" (lower subject) && contains "due" (lower subject))
            || contains "payment required" (lower subject)) eqn:H2;
    [discriminate|].
  destruct (find (fun indicator => contains indicator (lower subject))
                 legal_indicators) eqn:H3; [discriminate|].
  intros _ r Hr. unfold Spec.rules in Hr. cbn [In] in Hr.
  destruct Hr as [<- | [<- | [<- | []]]];
    cbn [Spec.holds Spec.rule_message Spec.rule_legal Spec.rule_bill].
  - exact H1.
  - unfold any_in. cbn [existsb].
    pose proof (find_none _ _ H3) as Hnone. cbn beta in Hnone.
    rewrite !Hnone by (unfold legal_indicators; cbn [In]; tauto).
    reflexivity.
  - apply orb_false_iff in H2. tauto.
Qed.

(** X27: with a subject and a sender that are strings the safeguard
    block never changes a result: every condition it tests is already a
    rule of the matcher that settles the email on the fast path, so
    [triage_email] returns the verdict of the matcher or the parsed
    answer of the crew as it is. *)
Theorem triage_safeguards_never_fire
    (subject sender : string) (body : pyarg) :
  triage_email self (Some subject) body (Some sender)
  = match _analyze_email_indicators self (Some subject) body (Some sender) with
    | (Some c, _, reason) =>
        Return (c, "Automatic categorization: " ++ reason)
    | (None, _, _) =>
        raw <- crew_kickoff self
                 (email_content (Some subject) body (Some sender)) ;;
        Return (parse_result raw)
    end.
Proof.
  destruct (triage_email_paths self (Some subject) body (Some sender))
    as [(c & confidence & reason & Ha & _ & ->) | (reason & Ha & ->)];
    rewrite Ha; [reflexivity|].
  unfold llm_triage.
  destruct (crew_kickoff self (email_content (Some subject) body (Some sender)))
    as [raw|e]; cbn [bind]; [|reflexivity].
  rewrite apply_safeguards_Some, safeguard_policy_id; [reflexivity|].
  intros _. exact (analyze_none_no_rule _ _ _ _ _ Ha).
Qed.

End SafeguardsSubsumed.
